(** * create-config: resolution of a configuration path against a static
      object and prioritized Meteor-collection layers

    Shallow embedding of [createConfig] (the package's main module) together
    with the parts of lodash 4.17.21 it calls: [_.get], [_.mergeWith],
    [_.isNil], [_.isArray], [_.reverse], and the JavaScript built-ins
    [String.prototype.split], [Array.prototype.concat] and
    [Array.prototype.join].

    Scope of the model.
    - JavaScript values are plain data: [undefined], [null], booleans,
      integer numbers, strings, arrays and plain objects.  Strings are
      sequences of 8-bit characters.
    - An object is the ordered list of its own enumerable properties; the
      members a data value inherits from [Object.prototype] are not part
      of the model, and property order is insertion order.  The members
      of the customizer function that lodash reads are modelled, own and
      inherited, with the accessors [caller] and [arguments] that throw
      when read.
    - Values are trees: two values met at different places are different
      references, so lodash's identity tests ([object === source], the
      cycle stack of [baseMerge]) never fire, and lodash's [eq] holds between
      primitives only.
    - Thrown errors are identified by their kind, not by their message. *)

From Stdlib Require Import List String Ascii ZArith Bool Lia DecimalString.
Import ListNotations.

Local Open Scope string_scope.
Local Open Scope list_scope.

(** ** JavaScript values *)

#[warnings="-register-all"]
Inductive value : Type :=
| VUndefined
| VNull
| VBool (b : bool)
| VNum (n : Z)
| VStr (s : string)
| VArr (elems : list value)
| VObj (props : list (string * value)).

(** [_.isNil(v)]: [v == null]. *)
Definition isNil (v : value) : bool :=
  match v with VUndefined | VNull => true | _ => false end.

Definition isUndefined (v : value) : bool :=
  match v with VUndefined => true | _ => false end.

Definition isArray (v : value) : bool :=
  match v with VArr _ => true | _ => false end.

(** [_.isObject(v)]: arrays and objects (functions are callbacks only). *)
Definition isObject (v : value) : bool :=
  match v with VArr _ | VObj _ => true | _ => false end.

Definition isPlainObject (v : value) : bool :=
  match v with VObj _ => true | _ => false end.

(** JavaScript truthiness, as tested by [if (source)]. *)
Definition truthy (v : value) : bool :=
  match v with
  | VUndefined | VNull => false
  | VBool b => b
  | VNum n => negb (n =? 0)%Z
  | VStr s => negb (s =? "")
  | VArr _ | VObj _ => true
  end.

(** lodash's [eq(value, other)], SameValueZero, on primitives; two objects
    or arrays are never the same reference in this model. *)
Definition sameValueZero (a b : value) : bool :=
  match a, b with
  | VUndefined, VUndefined => true
  | VNull, VNull => true
  | VBool x, VBool y => Bool.eqb x y
  | VNum x, VNum y => (x =? y)%Z
  | VStr x, VStr y => (x =? y)
  | _, _ => false
  end.

(** ** Strings *)

(** [String(i)] for an array index. *)
Definition key_of_nat (i : nat) : string :=
  NilEmpty.string_of_uint (Nat.to_uint i).

(** [s.split(sep)] for a one-character separator: the pieces between the
    occurrences of [sep]; never empty ([''.split('.')] is ['']). *)
Fixpoint split (sep : ascii) (s : string) : list string :=
  match s with
  | EmptyString => [""]
  | String c rest =>
      if Ascii.eqb c sep then "" :: split sep rest
      else match split sep rest with
           | [] => [String c ""]
           | piece :: pieces => String c piece :: pieces
           end
  end.

(** [segs.join(sep)] on an array of strings. *)
Fixpoint join (sep : string) (segs : list string) : string :=
  match segs with
  | [] => ""
  | [seg] => seg
  | seg :: rest => (seg ++ sep ++ join sep rest)%string
  end.

(** The characters of a string as one-character strings. *)
Fixpoint chars (s : string) : list value :=
  match s with
  | EmptyString => []
  | String c rest => VStr (String c "") :: chars rest
  end.

(** ** Property access *)

Fixpoint lookup (k : string) (props : list (string * value)) : option value :=
  match props with
  | [] => None
  | (k', v) :: rest => if k' =? k then Some v else lookup k rest
  end.

(** Element of an array-like at the index whose decimal form is [k];
    [i] is the index of the head of [l]. *)
Fixpoint at_index (l : list value) (i : nat) (k : string) : option value :=
  match l with
  | [] => None
  | v :: rest => if key_of_nat i =? k then Some v else at_index rest (S i) k
  end.

Definition indexed_get (l : list value) (k : string) : option value :=
  match at_index l 0 k with
  | Some v => Some v
  | None => if k =? "length" then Some (VNum (Z.of_nat (List.length l))) else None
  end.

(** Own property [k] of [object], if any. *)
Definition own (object : value) (k : string) : option value :=
  match object with
  | VObj props => lookup k props
  | VArr l => indexed_get l k
  | VStr s => indexed_get (chars s) k
  | _ => None
  end.

(** [object[k]] for a non-nullish [object]. *)
Definition prop (object : value) (k : string) : value :=
  match own object k with Some v => v | None => VUndefined end.

(** [k in Object(object)]. *)
Definition has (object : value) (k : string) : bool :=
  match own object k with Some _ => true | None => false end.

(** [props[k] = v] on a property list: in place when [k] is there,
    appended otherwise. *)
Fixpoint set (props : list (string * value)) (k : string) (v : value)
  : list (string * value) :=
  match props with
  | [] => [(k, v)]
  | (k', v') :: rest =>
      if k' =? k then (k', v) :: rest else (k', v') :: set rest k v
  end.

(** [l[i] = v] on an array, padding with holes (read as [undefined]). *)
Fixpoint set_index (l : list value) (i : nat) (v : value) : list value :=
  match i, l with
  | O, [] => [v]
  | O, _ :: rest => v :: rest
  | S i', [] => VUndefined :: set_index [] i' v
  | S i', x :: rest => x :: set_index rest i' v
  end.

(** The index denoted by [k] among the first [bound] indices. *)
Fixpoint find_index (k : string) (i bound : nat) : option nat :=
  match bound with
  | O => None
  | S bound' => if key_of_nat i =? k then Some i else find_index k (S i) bound'
  end.

(** [object[k] = v]. On an array only writes within or just past the
    current elements are modelled. *)
Definition assign (object : value) (k : string) (v : value) : value :=
  match object with
  | VObj props => VObj (set props k v)
  | VArr l =>
      match find_index k 0 (S (List.length l)) with
      | Some i => VArr (set_index l i v)
      | None => object
      end
  | _ => object
  end.

(** The enumerable properties [(key, object[key])] in [keysIn] order, for
    the sources without nested recursion (strings). *)
Fixpoint number_from (i : nat) (l : list value) : list (string * value) :=
  match l with
  | [] => []
  | v :: rest => (key_of_nat i, v) :: number_from (S i) rest
  end.

(** ** lodash [_.get] *)

Definition is_word (c : ascii) : bool :=
  let n := nat_of_ascii c in
  (((48 <=? n) && (n <=? 57)) || ((65 <=? n) && (n <=? 90))
   || ((97 <=? n) && (n <=? 122)) || (n =? 95))%nat.

Definition is_digit (c : ascii) : bool :=
  let n := nat_of_ascii c in ((48 <=? n) && (n <=? 57))%nat.

Definition is_quote (c : ascii) : bool :=
  let n := nat_of_ascii c in ((n =? 34) || (n =? 39))%nat.

(** What [.] does not match in a JavaScript regular expression. *)
Definition is_line_terminator (c : ascii) : bool :=
  let n := nat_of_ascii c in ((n =? 10) || (n =? 13))%nat.

(** [reIsPlainProp = /^\w*$/]. *)
Fixpoint reIsPlainProp (s : string) : bool :=
  match s with
  | EmptyString => true
  | String c rest => is_word c && reIsPlainProp rest
  end.

(** [[^[\]]*\]] at the head of [s]. *)
Fixpoint plain_bracket (s : string) : bool :=
  match s with
  | EmptyString => false
  | String c rest =>
      if Ascii.eqb c "]" then true
      else if Ascii.eqb c "[" then false
      else plain_bracket rest
  end.

(** [((?:(?!q)[^\\]|\\.)*?)q] at the head of [s]: the quoted text and what
    follows the closing quote. *)
Fixpoint quoted (q : ascii) (s : string) : option (string * string) :=
  match s with
  | EmptyString => None
  | String c rest =>
      if Ascii.eqb c q then Some ("", rest)
      else if Ascii.eqb c "\" then
        match rest with
        | EmptyString => None
        | String d rest' =>
            if is_line_terminator d then None
            else match quoted q rest' with
                 | Some (text, after) => Some (String c (String d text), after)
                 | None => None
                 end
        end
      else match quoted q rest with
           | Some (text, after) => Some (String c text, after)
           | None => None
           end
  end.

Definition starts_with (c : ascii) (s : string) : bool :=
  match s with String c' _ => Ascii.eqb c' c | EmptyString => false end.

Definition tail (s : string) : string :=
  match s with String _ rest => rest | EmptyString => "" end.

(** A quoted name and its closing bracket at the head of [s]: a single or
    double quote [q], then [(?:(?!q)[^\\]|\\.)*?q\]]. *)
Definition quoted_bracket (s : string) : option (string * string) :=
  match s with
  | EmptyString => None
  | String q rest =>
      if is_quote q then
        match quoted q rest with
        | Some (text, after) =>
            if starts_with "]" after then Some (text, tail after) else None
        | None => None
        end
      else None
  end.

(** [reIsDeepProp]: a dot, or an opening bracket followed by
    [[^[\]]*\]] or by a quoted name and [\]]. *)
Fixpoint reIsDeepProp (s : string) : bool :=
  match s with
  | EmptyString => false
  | String c rest =>
      if Ascii.eqb c "." then true
      else if Ascii.eqb c "[" then
        plain_bracket rest
        || (match quoted_bracket rest with Some _ => true | None => false end)
        || reIsDeepProp rest
      else reIsDeepProp rest
  end.

(** [isKey(value, object)] for a string [value]. *)
Definition isKey (s : string) (object : value) : bool :=
  reIsPlainProp s || negb (reIsDeepProp s)
  || (negb (isNil object) && has object s).

Definition is_path_punct (c : ascii) : bool :=
  Ascii.eqb c "." || Ascii.eqb c "[" || Ascii.eqb c "]".

(** The longest prefix of [s] satisfying [p], and the rest. *)
Fixpoint span (p : ascii -> bool) (s : string) : string * string :=
  match s with
  | EmptyString => ("", "")
  | String c rest =>
      if p c then let (run, after) := span p rest in (String c run, after)
      else ("", s)
  end.

(** [(-?\d+(?:\.\d+)?)\]] at the head of [s]. *)
Definition number_bracket (s : string) : option (string * string) :=
  let (sign, s1) := if starts_with "-" s then ("-", tail s) else ("", s) in
  let (int, s2) := span is_digit s1 in
  if int =? "" then None
  else if starts_with "]" s2 then Some ((sign ++ int)%string, tail s2)
  else if starts_with "." s2 then
    let (frac, s3) := span is_digit (tail s2) in
    if frac =? "" then None
    else if starts_with "]" s3 then Some ((sign ++ int ++ "." ++ frac)%string, tail s3)
    else None
  else None.

(** [reEscapeChar = /\\(\\)?/g] replaced by ['$1']. *)
Fixpoint unescape (s : string) : string :=
  match s with
  | EmptyString => ""
  | String c rest =>
      if Ascii.eqb c "\" then
        match rest with
        | String d rest' =>
            if Ascii.eqb d "\" then String d (unescape rest') else unescape rest
        | EmptyString => ""
        end
      else String c (unescape rest)
  end.

(** The empty alternative of [rePropName]:
    [(?=(?:\.|\[\])(?:\.|\[\]|$))]. *)
Definition empty_segment_ahead (s : string) : bool :=
  let after_sep :=
    if starts_with "." s then Some (tail s)
    else if starts_with "[" s && starts_with "]" (tail s) then Some (tail (tail s))
    else None in
  match after_sep with
  | Some r =>
      (r =? "") || starts_with "." r
      || (starts_with "[" r && starts_with "]" (tail r))
  | None => false
  end.

(** The successive matches of [rePropName] in [s], as [stringToPath] pushes
    them; every round consumes a character, so [String.length s] rounds
    suffice. *)
Fixpoint propNames (rounds : nat) (s : string) : list string :=
  match rounds, s with
  | O, _ | _, EmptyString => []
  | S rounds', String c rest =>
      let (run, after) := span (fun c => negb (is_path_punct c)) s in
      if negb (run =? "") then run :: propNames rounds' after
      else
        let bracket :=
          if Ascii.eqb c "[" then
            match number_bracket rest with
            | Some (number, after') => Some (number, after')
            | None =>
                match quoted_bracket rest with
                | Some (text, after') => Some (unescape text, after')
                | None => None
                end
            end
          else None in
        match bracket with
        | Some (name, after') => name :: propNames rounds' after'
        | None =>
            if empty_segment_ahead s then "" :: propNames rounds' rest
            else propNames rounds' rest
        end
  end.

Definition stringToPath (s : string) : list string :=
  (if starts_with "." s then [""] else []) ++ propNames (String.length s) s.

(** The two shapes of path [_.get] receives here. *)
Inductive property_path : Type :=
| Dotted (s : string)
| Segments (segs : list string).

Definition castPath (path : property_path) (object : value) : list string :=
  match path with
  | Segments segs => segs
  | Dotted s => if isKey s object then [s] else stringToPath s
  end.

(** The loop of [baseGet]: [None] when it stops on a nullish object before
    the path is used up. *)
Fixpoint descend (object : value) (path : list string) : option value :=
  match path with
  | [] => Some object
  | k :: rest => if isNil object then None else descend (prop object k) rest
  end.

(** [baseGet]: [(index && index == length) ? object : undefined]; with an
    empty path [index] stays [0]. *)
Definition baseGet (object : value) (path : property_path) : value :=
  match castPath path object with
  | [] => VUndefined
  | k :: rest =>
      match descend object (k :: rest) with
      | Some v => v
      | None => VUndefined
      end
  end.

(** [_.get(object, path)]. *)
Definition get (object : value) (path : property_path) : value :=
  if isNil object then VUndefined else baseGet object path.

(** ** Errors *)

(** Every failure of [createConfig] is a thrown [Error]; the kinds below
    name the messages of the source.
    - [InvalidPathError]: path should be a string or an array.
    - [InvalidProviderError]: collection should either be a function or a
      Meteor Collection.
    - [InvalidSelectorError]: selector should either be a function or an
      object.
    - [InvalidPathPrefixError]: keyPrefix should be a string or an array.
    - [UndefinedStaticFallbackError]: Configuration needs to be defined for
      staticPart at path.
    - [TypeError]: raised by the JavaScript runtime on calling what is not
      a function.
    - [Raised]: whatever a callback of the caller throws. *)
Inductive error : Type :=
| InvalidPathError
| InvalidProviderError
| InvalidSelectorError
| InvalidPathPrefixError
| UndefinedStaticFallbackError
| TypeError
| Raised (what : string).

Inductive result (A : Type) : Type :=
| Ok (a : A)
| Throw (e : error).

Arguments Ok {A} a.
Arguments Throw {A} e.

Definition bind {A B : Type} (r : result A) (k : A -> result B) : result B :=
  match r with
  | Ok a => k a
  | Throw e => Throw e
  end.

Notation "x <- r ;; k" := (bind r (fun x => k))
  (at level 61, r at next level, right associativity).

(** [array.map(f)] with a callback that may throw: the first throw ends the
    iteration. *)
Fixpoint mapM {A B : Type} (f : A -> result B) (l : list A) : result (list B) :=
  match l with
  | [] => Ok []
  | a :: rest => b <- f a ;; bs <- mapM f rest ;; Ok (b :: bs)
  end.

(** ** lodash [_.mergeWith] *)

Definition MAX_SAFE_INTEGER : Z := 9007199254740991.

Definition isLength (v : value) : bool :=
  match v with
  | VNum n => (0 <=? n)%Z && (n <=? MAX_SAFE_INTEGER)%Z
  | _ => false
  end.

Definition isArrayLike (v : value) : bool :=
  negb (isNil v) && isLength (prop v "length").

(** [copyArray(source)] on an array-like object. *)
Definition copyArray (source : value) : value :=
  match prop source "length" with
  | VNum n => VArr (map (fun i => prop source (key_of_nat i)) (seq 0 (Z.to_nat n)))
  | _ => VArr []
  end.

(** [safeGet(object, key)]; its two guards concern the keys [constructor]
    and [__proto__], which name inherited members. *)
Definition safeGet (object : value) (key : string) : value :=
  prop object key.

Definition assignMergeValue (object : value) (key : string) (v : value) : value :=
  if (negb (isUndefined v) && negb (sameValueZero (prop object key) v))
     || (isUndefined v && negb (has object key))
  then assign object key v
  else object.

Section BaseMerge.

(** The customizer in force, if any. *)
Variable customizer : option (value -> value -> value).

Definition customize (objValue srcValue : value) : value :=
  match customizer with
  | Some f => f objValue srcValue
  | None => VUndefined
  end.

(** [baseMergeDeep(object, source, key, ...)], with [srcValue] the value
    of [source] at [key] and [mergeFunc newValue] standing for the
    recursive [mergeFunc(newValue, srcValue, ...)]. *)
Definition baseMergeDeep (mergeFunc : value -> value)
    (object : value) (key : string) (srcValue : value) : value :=
  let objValue := safeGet object key in
  let newValue := customize objValue srcValue in
  if negb (isUndefined newValue) then assignMergeValue object key newValue
  else
    match srcValue with
    | VArr _ =>
        let newValue :=
          if isArray objValue then objValue
          else if isObject objValue && isArrayLike objValue then copyArray objValue
          else VArr [] in
        assignMergeValue object key (mergeFunc newValue)
    | VObj _ =>
        let newValue := if isObject objValue then objValue else VObj [] in
        assignMergeValue object key (mergeFunc newValue)
    | _ => assignMergeValue object key srcValue
    end.

(** The iteratee [baseMerge] hands to [baseFor]. *)
Definition mergeProperty (mergeFunc : value -> value)
    (object : value) (key : string) (srcValue : value) : value :=
  if isObject srcValue then baseMergeDeep mergeFunc object key srcValue
  else
    let newValue := customize (safeGet object key) srcValue in
    let newValue := if isUndefined newValue then srcValue else newValue in
    assignMergeValue object key newValue.

(** [baseMerge(object, source, ...)]: [baseFor] over [keysIn(source)],
    which are the own keys of an object and the indices of an array or of
    a string; a number or a boolean has none. *)
Fixpoint baseMerge (source : value) (object : value) {struct source} : value :=
  match source with
  | VObj props =>
      (fix each (props : list (string * value)) (object : value) : value :=
         match props with
         | [] => object
         | (key, srcValue) :: rest =>
             each rest (mergeProperty (baseMerge srcValue) object key srcValue)
         end) props object
  | VArr elems =>
      (fix each (elems : list value) (index : nat) (object : value) : value :=
         match elems with
         | [] => object
         | srcValue :: rest =>
             each rest (S index)
               (mergeProperty (baseMerge srcValue) object (key_of_nat index) srcValue)
         end) elems 0 object
  | VStr s =>
      fold_left
        (fun object '(key, srcValue) =>
           mergeProperty (fun newValue => newValue) object key srcValue)
        (number_from 0 (chars s)) object
  | _ => object
  end.

End BaseMerge.

(** [isIndex(value, length)] for a number [value]. *)
Definition isIndex (i : Z) (length : value) : bool :=
  match length with
  | VNum n => (0 <=? i)%Z && (i <? n)%Z
  | _ => false
  end.

(** [isIterateeCall(value, index, object)] on data. *)
Definition isIterateeCall (v index object : value) : bool :=
  if negb (isObject object) then false
  else
    match index with
    | VNum i =>
        if isArrayLike object && isIndex i (prop object "length")
        then sameValueZero (prop object (key_of_nat (Z.to_nat i))) v
        else false
    | VStr s => if has object s then sameValueZero (prop object s) v else false
    | _ => false
    end.

(** What reading a member of the customizer gives: a data value, a
    function or prototype object (never equal to a data value), or the
    [TypeError] thrown by the accessors [caller] and [arguments] that
    [Function.prototype] keeps for strict-mode and arrow functions. *)
Inductive member : Type :=
| Holds (v : value)
| Inherited
| Restricted.

(** The members of [Function.prototype] and [Object.prototype] with a
    string name, other than [length], [name], [caller] and [arguments]. *)
Definition inherited_members : list string :=
  ["apply"; "bind"; "call"; "constructor"; "toString"; "toLocaleString";
   "valueOf"; "hasOwnProperty"; "isPrototypeOf"; "propertyIsEnumerable";
   "__defineGetter__"; "__defineSetter__"; "__lookupGetter__";
   "__lookupSetter__"; "__proto__"].

(** The names of the throwing accessors. *)
Definition restricted (name : string) : bool :=
  (name =? "caller") || (name =? "arguments").

(** The members of the two-parameter arrow function passed as customizer,
    own and inherited: what [index in object] and [object[index]] see when
    [createAssigner] takes that function for its guard.  [None]: no such
    member. *)
Definition customizer_properties (name : string) : option member :=
  if name =? "length" then Some (Holds (VNum 2))
  else if name =? "name" then Some (Holds (VStr ""))
  else if restricted name then Some Restricted
  else if existsb (String.eqb name) inherited_members then Some Inherited
  else None.

(** [isIterateeCall(value, index, object)] with the customizer as [object]:
    a function is an object but not array-like, so only a string [index]
    is looked up; [object[index]] is read before it is compared, and the
    read throws for [caller] and [arguments]. *)
Definition isIterateeCall_customizer (v index : value) : result bool :=
  match index with
  | VStr s =>
      match customizer_properties s with
      | Some (Holds x) => Ok (sameValueZero x v)
      | Some Inherited => Ok false
      | Some Restricted => Throw TypeError
      | None => Ok false
      end
  | _ => Ok false
  end.

(** [_.mergeWith({}, ...sources, customizer)] as [createAssigner] runs it.
    The customizer is the last argument, so [sources[2]], the guard, is
    the customizer itself when there are two sources before it. *)
Definition mergeWith (sources : list value) (customizer : value -> value -> value)
  : result value :=
  let length := List.length sources in
  guarded <-
    match sources with
    | [v0; v1] => isIterateeCall_customizer v0 v1
    | v0 :: v1 :: guard :: _ => Ok (isIterateeCall v0 v1 guard)
    | _ => Ok false
    end ;;
  let customizer' :=
    if guarded && (length <? 3)%nat then None else Some customizer in
  let length' := if guarded then 1%nat else length in
  Ok (fold_left
        (fun object source =>
           if truthy source then baseMerge customizer' source object else object)
        (firstn length' sources) (VObj [])).

(** ** createConfig *)

(** A path argument: a string, an array of segments, [undefined], or
    anything else. *)
Inductive path_argument : Type :=
| PathString (s : string)
| PathArray (segs : list string)
| PathUndefined
| PathOther.

(** What the code asks of a collection: whether its [find] member is
    truthy, and its [findOne] method when it has one.  [findOne] receives
    the selector and, on the client, the one field the query is restricted
    to. *)
Record Collection : Type := {
  find : bool;
  findOne : option (value -> option string -> result value)
}.

(** The [collection] of a layer: a function of [opts], whose result is
    used as it comes, or a fixed value. *)
Inductive collection_field : Type :=
| CollectionFunction (f : value -> result Collection)
| CollectionValue (c : Collection).

(** The [selector] of a layer: a function of [opts] or a fixed value.
    The test [_.isError(_selector)] of line 59 is applied to the result of
    a function as well: [Throw e] stands for the function throwing [e] and
    for its returning the [Error] object [e], which line 59 throws. *)
Inductive selector_field : Type :=
| SelectorFunction (f : value -> result value)
| SelectorValue (v : value).

(** One element of [dynamicPart]. *)
Record spec : Type := {
  collection : collection_field;
  selector : selector_field;
  pathPrefix : path_argument
}.

(** The path and path-prefix conversions:
    [_.isString(p) ? p.split('.') : _.isArray(p) ? p : _.isUndefined(p) ? []
     : new Error(...)], the error being thrown on the next line. *)
Definition to_segments (p : path_argument) (e : error) : result (list string) :=
  match p with
  | PathString s => Ok (split "." s)
  | PathArray segs => Ok segs
  | PathUndefined => Ok []
  | PathOther => Throw e
  end.

(** [array.concat(item)]: an array argument is spread. *)
Definition concat (array : list value) (item : value) : list value :=
  match item with
  | VArr elems => array ++ elems
  | _ => array ++ [item]
  end.

(** The customizer passed to [_.mergeWith]; falling off its end returns
    [undefined]. *)
Definition customizer (left right : value) : value :=
  if isArray right then right
  else if isArray left then
    if isNil right then left else right
  else VUndefined.

(** [_.reverse(valuesFromDb.concat(valueFromStaticPart))]. *)
Definition allValues (valuesFromDb : list value) (valueFromStaticPart : value)
  : list value :=
  rev (concat valuesFromDb valueFromStaticPart).

(** The defaults [opts={}] and [config=staticPart] of the returned
    function, taken by an [undefined] argument. *)
Definition opts_or_default (opts : value) : value :=
  if isUndefined opts then VObj [] else opts.

Definition config_or_default (staticPart config : value) : value :=
  if isUndefined config then staticPart else config.

Section CreateConfig.

(** [Meteor.isClient]. *)
Variable isClient : bool.

(** The callback mapped over [dynamicPart]. [_collection] is either a
    collection or the [Error] object built for an invalid one, which the
    code does not throw. *)
Definition valueFromDb (opts : value) (_path : list string) (s : spec)
  : result value :=
  _collection <-
    match collection s with
    | CollectionFunction f => c <- f opts ;; Ok (inl c)
    | CollectionValue c =>
        Ok (if find c then inl c else inr InvalidProviderError)
    end ;;
  _selector <-
    match selector s with
    | SelectorFunction f => f opts
    | SelectorValue v =>
        if isPlainObject v then Ok v else Throw InvalidSelectorError
    end ;;
  _pathPrefix <- to_segments (pathPrefix s) InvalidPathPrefixError ;;
  let pathInDocument := join "." (_pathPrefix ++ _path) in
  doc <-
    match _collection with
    | inl c =>
        match findOne c with
        | Some query =>
            query _selector (if isClient then Some pathInDocument else None)
        | None => Throw TypeError
        end
    | inr _ => Throw TypeError
    end ;;
  Ok (get doc (Dotted pathInDocument)).

(** [createConfig(staticPart, dynamicPart)(path, opts, config)]. *)
Definition createConfig (staticPart : value) (dynamicPart : list spec)
    (path : path_argument) (opts config : value) : result value :=
  let opts := opts_or_default opts in
  let config := config_or_default staticPart config in
  _path <- to_segments path InvalidPathError ;;
  values <- mapM (valueFromDb opts _path) dynamicPart ;;
  let valuesFromDb := filter (fun v => negb (isNil v)) values in
  if negb (List.length valuesFromDb =? 0)%nat then
    let valueFromStaticPart := get config (Segments _path) in
    if isNil valueFromStaticPart then Throw UndefinedStaticFallbackError
    else mergeWith (allValues valuesFromDb valueFromStaticPart) customizer
  else Ok (get config (Segments _path)).

End CreateConfig.

(** ** Vocabulary of the statements *)

(** The enumerable properties of a merge source, in the order [baseMerge]
    visits them. *)
Definition entries (source : value) : list (string * value) :=
  match source with
  | VObj props => props
  | VArr elems => number_from 0 elems
  | VStr s => number_from 0 (chars s)
  | _ => []
  end.

(** What [baseMerge] does with one entry of its source. *)
Definition mergeEntry c (object : value) (entry : string * value) : value :=
  mergeProperty c (baseMerge c (snd entry)) object (fst entry) (snd entry).

(** The merge sequences on which the guard test of [createAssigner] reads
    a throwing accessor of the customizer: two sources, the second being
    the string [caller] or [arguments]. *)
Definition guard_throws (sources : list value) : bool :=
  match sources with
  | [_; VStr s] => restricted s
  | _ => false
  end.

(** The same, told of the layers' answers that are values when the static
    value is not an array: a single answer, the string [caller] or
    [arguments]. *)
Definition restricted_answer (answers : list value) : bool :=
  match answers with
  | [VStr s] => restricted s
  | _ => false
  end.

(** Follows the spec's words (data model, Path): a path is an ordered
    sequence of segments identifying a location in a nested mapping, the
    empty sequence denotes the root, and the value is absent where the
    path is not present. *)
Fixpoint value_at (mapping : value) (path : list string) : value :=
  match path with
  | [] => mapping
  | segment :: rest =>
      if isNil mapping then VUndefined
      else value_at (prop mapping segment) rest
  end.

(** ** The example of the package documentation *)

Module Example.

Definition defaults : value :=
  VObj [("screen", VObj [("height", VStr "large"); ("width", VStr "medium")])].

(** The user document the documentation shows [findOne] returning. *)
Definition user : value :=
  VObj [("_id", VStr "current/user/id");
        ("settings", VObj [("screen", VObj [("height", VStr "small")])])].

Definition users : Collection :=
  {| find := true; findOne := Some (fun _ _ => Ok user) |}.

Definition dynamicPart : list spec :=
  [{| collection := CollectionValue users;
      selector := SelectorFunction (fun _ => Ok (VObj [("_id", VStr "current/user/id")]));
      pathPrefix := PathArray ["settings"] |}].

End Example.

(** Inputs of the evaluations below. *)
Module Inputs.

(** A collection whose [findOne] returns [doc] whatever the query. *)
Definition holding (doc : value) : Collection :=
  {| find := true; findOne := Some (fun _ _ => Ok doc) |}.

(** A layer over [holding doc] with a fixed selector and no prefix. *)
Definition layer (doc : value) : spec :=
  {| collection := CollectionValue (holding doc);
     selector := SelectorValue (VObj []);
     pathPrefix := PathUndefined |}.

(** A layer whose provider is neither a function nor an object with a
    [find] member; [query] is its [findOne] member, if any. *)
Definition misconfigured
    (query : option (value -> option string -> result value)) : spec :=
  {| collection := CollectionValue {| find := false; findOne := query |};
     selector := SelectorValue (VObj []);
     pathPrefix := PathUndefined |}.

End Inputs.

(** [s] has no dot. *)
Fixpoint dot_free (s : string) : bool :=
  match s with
  | EmptyString => true
  | String c rest => negb (Ascii.eqb c ".") && dot_free rest
  end.

(** ** Vocabulary of the further properties *)

(** The layer's provider is a collection, or a function that returns one
    for these options. *)
Definition provider_returns (opts : value) (s : spec) : Prop :=
  match collection s with
  | CollectionFunction f => exists c, f opts = Ok c
  | CollectionValue _ => True
  end.

(** The layer's selector is a plain object, or a function that returns for
    these options. *)
Definition selector_resolves (opts : value) (s : spec) : Prop :=
  match selector s with
  | SelectorFunction f => exists v, f opts = Ok v
  | SelectorValue v => isPlainObject v = true
  end.

(** Restricting a query of [c] to one field changes neither whether it
    throws nor the value found at that field. *)
Definition fields_transparent (c : Collection) : Prop :=
  match findOne c with
  | Some query =>
      forall _selector field,
        (doc <- query _selector (Some field) ;; Ok (get doc (Dotted field)))
        = (doc <- query _selector None ;; Ok (get doc (Dotted field)))
  | None => True
  end.

(** The collection a layer ends up querying is [fields_transparent]. *)
Definition restriction_transparent (opts : value) (s : spec) : Prop :=
  match collection s with
  | CollectionFunction f =>
      match f opts with
      | Ok c => fields_transparent c
      | Throw _ => True
      end
  | CollectionValue c => find c = true -> fields_transparent c
  end.

(** [s] has none of the characters [.], [[] and []] that structure a
    lodash path string. *)
Fixpoint punct_free (s : string) : bool :=
  match s with
  | EmptyString => true
  | String c rest => negb (is_path_punct c) && punct_free rest
  end.

(** The layer is a collection with a plain-object selector in which
    [findOne] finds no document: it returns [undefined] or [null]. *)
Definition finds_nothing (s : spec) : Prop :=
  exists c query sel,
    collection s = CollectionValue c /\ find c = true
    /\ findOne c = Some query
    /\ selector s = SelectorValue sel /\ isPlainObject sel = true
    /\ pathPrefix s <> PathOther
    /\ forall field, exists doc, query sel field = Ok doc /\ isNil doc = true.



(** * Properties *)

(** ** The error monad and the layer loop *)

Lemma mapM_Forall2 {A B : Type} (f : A -> result B) (l : list A) (bs : list B) :
  Forall2 (fun a b => f a = Ok b) l bs -> mapM f l = Ok bs.
Proof.
  induction 1 as [|a b l bs Hab _ IH]; simpl.
  - reflexivity.
  - rewrite Hab, IH. reflexivity.
Qed.

Lemma mapM_app {A B : Type} (f : A -> result B) (l1 l2 : list A) :
  mapM f (l1 ++ l2)
  = (bs1 <- mapM f l1 ;; bs2 <- mapM f l2 ;; Ok (bs1 ++ bs2)).
Proof.
  induction l1 as [|a l1 IH]; simpl.
  - destruct (mapM f l2); reflexivity.
  - destruct (f a) as [b|e]; simpl; [|reflexivity].
    rewrite IH. destruct (mapM f l1) as [bs1|e]; simpl; [|reflexivity].
    destruct (mapM f l2); reflexivity.
Qed.

Lemma filter_defined_nonempty (values : list value) :
  Exists (fun v => isNil v = false) values ->
  (List.length (filter (fun v => negb (isNil v)) values) =? 0)%nat = false.
Proof.
  induction 1 as [v values Hv | v values _ IH]; simpl.
  - rewrite Hv. reflexivity.
  - destruct (isNil v); simpl; [exact IH | reflexivity].
Qed.

Lemma filter_defined_empty (values : list value) :
  Forall (fun v => isNil v = true) values ->
  filter (fun v => negb (isNil v)) values = [].
Proof.
  induction 1 as [|v values Hv _ IH]; simpl.
  - reflexivity.
  - rewrite Hv. exact IH.
Qed.

(** What [createConfig] does once the path is converted and every layer
    has answered. *)
Lemma createConfig_answered isClient staticPart dynamicPart path opts config
    _path values :
  to_segments path InvalidPathError = Ok _path ->
  Forall2 (fun s v => valueFromDb isClient (opts_or_default opts) _path s = Ok v)
          dynamicPart values ->
  createConfig isClient staticPart dynamicPart path opts config
  = let valuesFromDb := filter (fun v => negb (isNil v)) values in
    let valueFromStaticPart :=
      get (config_or_default staticPart config) (Segments _path) in
    if negb (List.length valuesFromDb =? 0)%nat then
      if isNil valueFromStaticPart then Throw UndefinedStaticFallbackError
      else mergeWith (allValues valuesFromDb valueFromStaticPart) customizer
    else Ok valueFromStaticPart.
Proof.
  intros Hpath Hvalues. unfold createConfig.
  rewrite Hpath. simpl bind.
  rewrite (mapM_Forall2 _ _ _ Hvalues). reflexivity.
Qed.

(** Rewrites a call whose path converts ([Hpath]) and whose layers all
    answer ([Hvalues]) into its last step. *)
Ltac answered Hpath Hvalues :=
  rewrite (createConfig_answered _ _ _ _ _ _ _ _ Hpath Hvalues); cbv zeta.

(** ** Evaluations on the documented example and on small inputs *)

(** C1. The documentation of [createConfig] and the precedence property say
    that a path at which the layers and the static part hold scalars
    resolves to the scalar of the most authoritative layer.  The code hands
    the scalars to [_.mergeWith({}, ...)], which copies the characters of
    each string into the fresh object by index: on the documented example
    ['screen.height'] resolves to the object [{0:'s', 1:'m', 2:'a', 3:'l',
    4:'l'}], not to ['small'], and with layers ['hi'], ['tiny'] over the
    static ['large'] to [{0:'h', 1:'i', 2:'n', 3:'y', 4:'e'}].  The two
    other calls of the example return what the documentation says. *)
Theorem documented_example_evaluates isClient :
  createConfig isClient Example.defaults Example.dynamicPart
    (PathString "screen.height") VUndefined VUndefined
  = Ok (VObj [("0", VStr "s"); ("1", VStr "m"); ("2", VStr "a");
              ("3", VStr "l"); ("4", VStr "l")])
  /\ createConfig isClient Example.defaults Example.dynamicPart
       (PathString "screen.height") VUndefined VUndefined
     <> Ok (VStr "small")
  /\ createConfig isClient (VObj [("size", VStr "large")])
       [Inputs.layer (VObj [("size", VStr "hi")]);
        Inputs.layer (VObj [("size", VStr "tiny")])]
       (PathString "size") VUndefined VUndefined
     = Ok (VObj [("0", VStr "h"); ("1", VStr "i"); ("2", VStr "n");
                 ("3", VStr "y"); ("4", VStr "e")])
  /\ createConfig isClient Example.defaults Example.dynamicPart
       (PathArray ["screen"; "width"]) VUndefined VUndefined
     = Ok (VStr "medium")
  /\ createConfig isClient Example.defaults Example.dynamicPart
       (PathString "screen") VUndefined VUndefined
     = Ok (VObj [("height", VStr "small"); ("width", VStr "medium")]).
Proof.
  destruct isClient; repeat split;
    solve [vm_compute; reflexivity | vm_compute; discriminate].
Qed.

(** C2. An array held by the static part at the requested path and a
    different array held there by a layer do not resolve to the layer's
    array.  [concat] spreads the static array into the merge sequence and
    [_.mergeWith] merges into a fresh object, so static [[1, 2]] under
    layer [[3]] resolves to the object [{0: 3}], and static
    [['ab', 'cd']] under layer [['x']] to [{0: 'x', 1: 'b'}], where a
    character of a static element shows through. *)
Theorem array_at_requested_path_evaluates isClient :
  createConfig isClient (VObj [("tags", VArr [VNum 1; VNum 2])])
    [Inputs.layer (VObj [("tags", VArr [VNum 3])])]
    (PathString "tags") VUndefined VUndefined
  = Ok (VObj [("0", VNum 3)])
  /\ createConfig isClient (VObj [("tags", VArr [VNum 1; VNum 2])])
       [Inputs.layer (VObj [("tags", VArr [VNum 3])])]
       (PathString "tags") VUndefined VUndefined
     <> Ok (VArr [VNum 3])
  /\ createConfig isClient (VObj [("tags", VArr [VStr "ab"; VStr "cd"])])
       [Inputs.layer (VObj [("tags", VArr [VStr "x"])])]
       (PathString "tags") VUndefined VUndefined
     = Ok (VObj [("0", VStr "x"); ("1", VStr "b")]).
Proof.
  destruct isClient; repeat split;
    solve [vm_compute; reflexivity | vm_compute; discriminate].
Qed.

(** C4. A provider that is neither a function nor an object with a [find]
    member makes the code build the invalid-collection [Error], but,
    unlike the selector and the path prefix, this error is never thrown:
    the call goes on to [_collection.findOne] on the [Error] object and
    fails there with the runtime's [TypeError], not with
    [InvalidProviderError]. *)
Theorem invalid_provider_evaluates isClient staticPart s opts config query :
  createConfig isClient staticPart [Inputs.misconfigured query]
    (PathString s) opts config
  = Throw TypeError
  /\ createConfig isClient staticPart [Inputs.misconfigured query]
       (PathString s) opts config
     <> Throw InvalidProviderError.
Proof.
  split; [reflexivity | discriminate].
Qed.

(** C5. An absent path is converted to the empty array, but [_.get] with an
    empty path returns [undefined], not the object: without layers the call
    resolves to [undefined] whatever the static configuration, and on the
    documented example, where the layer answers with the user's settings,
    it fails for want of a static value. *)
Theorem absent_path_evaluates isClient staticPart opts :
  to_segments PathUndefined InvalidPathError = Ok []
  /\ createConfig isClient staticPart [] PathUndefined opts VUndefined
     = Ok VUndefined
  /\ createConfig isClient (VObj [("a", VNum 1)]) [] PathUndefined opts VUndefined
     <> Ok (VObj [("a", VNum 1)])
  /\ createConfig isClient Example.defaults Example.dynamicPart
       PathUndefined opts VUndefined
     = Throw UndefinedStaticFallbackError.
Proof.
  split; [reflexivity|]. split; [|split].
  - unfold createConfig, get, config_or_default. simpl.
    destruct (isNil staticPart); reflexivity.
  - unfold createConfig, get. simpl. discriminate.
  - destruct isClient; reflexivity.
Qed.

(** ** The merge sequence *)

(** When the static value is not an array the merge sequence is in
    increasing precedence: the static value, then the layer values from the
    least to the most authoritative. *)
Lemma allValues_increasing_precedence valuesFromDb valueFromStaticPart :
  isArray valueFromStaticPart = false ->
  allValues valuesFromDb valueFromStaticPart
  = valueFromStaticPart :: rev valuesFromDb.
Proof.
  intros Hstatic. unfold allValues, concat.
  destruct valueFromStaticPart; try discriminate Hstatic;
    rewrite rev_app_distr; reflexivity.
Qed.

(** A static array is spread by [concat]: its elements, reversed, take the
    place of the static value. *)
Lemma allValues_static_array valuesFromDb elems :
  allValues valuesFromDb (VArr elems) = rev elems ++ rev valuesFromDb.
Proof.
  unfold allValues, concat. apply rev_app_distr.
Qed.

(** C6. The merge sequence is meant to be the static value followed by the
    layer values in increasing authority.  [valuesFromDb.concat(...)]
    spreads a static value that is an array, so for the static value
    [[1, 2]] and the layer value [[3]] the sequence is [2, 1, [3]] and not
    [[1, 2], [3]]: the static value itself is not in it. *)
Theorem merge_sequence_evaluates :
  allValues [VArr [VNum 3]] (VArr [VNum 1; VNum 2])
  = [VNum 2; VNum 1; VArr [VNum 3]]
  /\ allValues [VArr [VNum 3]] (VArr [VNum 1; VNum 2])
     <> VArr [VNum 1; VNum 2] :: rev [VArr [VNum 3]]
  /\ ~ In (VArr [VNum 1; VNum 2])
         (allValues [VArr [VNum 3]] (VArr [VNum 1; VNum 2])).
Proof.
  split; [reflexivity|]. split; [discriminate|].
  simpl. intros [H|[H|[H|[]]]]; discriminate H.
Qed.

(** ** Path conversion *)

Lemma split_dot_free (s : string) :
  dot_free s = true -> split "." s = [s].
Proof.
  induction s as [|c s IH]; simpl; [reflexivity|].
  destruct (Ascii.eqb c "."); simpl; [discriminate|].
  intros Hs. rewrite (IH Hs). reflexivity.
Qed.

Lemma split_segment (seg rest : string) :
  dot_free seg = true ->
  split "." (seg ++ String "." rest) = seg :: split "." rest.
Proof.
  induction seg as [|c seg IH]; simpl; [reflexivity|].
  destruct (Ascii.eqb c "."); simpl; [discriminate|].
  intros Hseg. rewrite (IH Hseg). reflexivity.
Qed.

(** Splitting the dotted form of a sequence of segments gives the sequence
    back. *)
Lemma split_join (segs : list string) :
  segs <> [] ->
  Forall (fun seg => dot_free seg = true) segs ->
  split "." (join "." segs) = segs.
Proof.
  intros Hne Hfree. induction Hfree as [|seg rest Hseg Hrest IH].
  - contradiction.
  - destruct rest as [|seg' rest].
    + simpl. apply split_dot_free, Hseg.
    + change (join "." (seg :: seg' :: rest))
        with (seg ++ String "." (join "." (seg' :: rest)))%string.
      rewrite (split_segment _ _ Hseg), IH; [reflexivity | discriminate].
Qed.

(** C7. A path given as a dotted string and the same path given as the
    sequence of its segments are converted to the same sequence, and the
    two calls resolve identically (same value, or same kind of failure),
    whatever the static configuration, the layers and the options;
    [resolve('a.b.c')] and [resolve(['a','b','c'])] are the instance
    [segs = ['a','b','c']]. *)
Theorem path_equivalence isClient staticPart dynamicPart opts config
    (segs : list string) :
  segs <> [] ->
  Forall (fun seg => dot_free seg = true) segs ->
  to_segments (PathString (join "." segs)) InvalidPathError
  = to_segments (PathArray segs) InvalidPathError
  /\ createConfig isClient staticPart dynamicPart
       (PathString (join "." segs)) opts config
     = createConfig isClient staticPart dynamicPart (PathArray segs) opts config.
Proof.
  intros Hne Hfree.
  assert (Hsame : to_segments (PathString (join "." segs)) InvalidPathError
                  = to_segments (PathArray segs) InvalidPathError).
  { simpl. rewrite (split_join _ Hne Hfree). reflexivity. }
  split; [exact Hsame|].
  unfold createConfig. rewrite Hsame. reflexivity.
Qed.

Lemma path_equivalence_witness :
  createConfig true Example.defaults Example.dynamicPart
    (PathString "a.b.c") VUndefined VUndefined
  = createConfig true Example.defaults Example.dynamicPart
      (PathArray ["a"; "b"; "c"]) VUndefined VUndefined.
Proof.
  apply (path_equivalence true Example.defaults Example.dynamicPart
           VUndefined VUndefined ["a"; "b"; "c"]).
  - discriminate.
  - repeat constructor.
Defined.

(** ** Resolution without layers *)

Lemma split_nonempty sep s : split sep s <> [].
Proof.
  destruct s as [|c s]; simpl; [discriminate|].
  destruct (Ascii.eqb c sep); [discriminate|].
  destruct (split sep s); discriminate.
Qed.


(** The code's lookup [_.get] agrees with the spec's path lookup on every
    path but the empty one, where it gives [undefined]. *)
Lemma get_value_at object path :
  path <> [] -> get object (Segments path) = value_at object path.
Proof.
  destruct path as [|k path]; [contradiction|]. intros _.
  unfold get, baseGet. simpl castPath. cbv iota.
  destruct (isNil object) eqn:Hobject; simpl; rewrite Hobject; [reflexivity|].
  generalize (prop object k). clear Hobject object k.
  induction path as [|k path IH]; intros object; simpl; [reflexivity|].
  destruct (isNil object); [reflexivity | apply IH].
Qed.

(** C8. With an empty layer list a call is meant to return the plain path
    lookup of the path in the static configuration, the empty path
    denoting the root.  The code does so for every path string and every
    non-empty array of segments, with no layer queried and nothing merged;
    but for the path [undefined], converted to the empty path, and for the
    empty array, [_.get] returns [undefined] where the lookup of the root
    is the static configuration itself. *)
Theorem no_layers_lookup_evaluates isClient staticPart opts :
  (forall s,
      createConfig isClient staticPart [] (PathString s) opts VUndefined
      = Ok (value_at staticPart (split "." s)))
  /\ (forall segs,
         segs <> [] ->
         createConfig isClient staticPart [] (PathArray segs) opts VUndefined
         = Ok (value_at staticPart segs))
  /\ createConfig isClient (VObj [("a", VNum 1)]) [] PathUndefined opts VUndefined
     = Ok VUndefined
  /\ createConfig isClient (VObj [("a", VNum 1)]) [] (PathArray []) opts VUndefined
     = Ok VUndefined
  /\ value_at (VObj [("a", VNum 1)]) [] = VObj [("a", VNum 1)]
  /\ createConfig isClient (VObj [("a", VNum 1)]) [] PathUndefined opts VUndefined
     <> Ok (value_at (VObj [("a", VNum 1)]) []).
Proof.
  split; [|split].
  - intros s. unfold createConfig. simpl.
    rewrite get_value_at; [reflexivity | apply split_nonempty].
  - intros segs Hsegs. unfold createConfig. simpl.
    rewrite (get_value_at _ _ Hsegs). reflexivity.
  - repeat split; try reflexivity. discriminate.
Qed.

Lemma no_layers_lookup_evaluates_witness :
  createConfig true Example.defaults [] (PathArray ["screen"; "width"])
    VUndefined VUndefined
  = Ok (value_at Example.defaults ["screen"; "width"]).
Proof.
  destruct (no_layers_lookup_evaluates true Example.defaults VUndefined)
    as (_ & Harray & _).
  apply (Harray ["screen"; "width"]). discriminate.
Defined.

(** ** Layers over a missing static value *)

(** A layer answers with a value, and the static configuration holds
    [undefined] or [null] at the path: the call fails. *)
Lemma override_without_static isClient staticPart dynamicPart path opts config
    _path values :
  to_segments path InvalidPathError = Ok _path ->
  Forall2 (fun s v => valueFromDb isClient (opts_or_default opts) _path s = Ok v)
          dynamicPart values ->
  Exists (fun v => isNil v = false) values ->
  isNil (get (config_or_default staticPart config) (Segments _path)) = true ->
  createConfig isClient staticPart dynamicPart path opts config
  = Throw UndefinedStaticFallbackError.
Proof.
  intros Hpath Hvalues Hsome Hstatic.
  answered Hpath Hvalues.
  rewrite (filter_defined_nonempty _ Hsome), Hstatic. reflexivity.
Qed.

(** C3. When the path is valid, every layer answers, at least one of the
    answers is a value (neither [undefined] nor [null]) and the static
    configuration has no value at the path, the call fails with
    [UndefinedStaticFallbackError]: a layer cannot introduce a path. *)
Theorem missing_static_fallback_is_fatal isClient staticPart dynamicPart
    path opts config _path values :
  to_segments path InvalidPathError = Ok _path ->
  Forall2 (fun s v => valueFromDb isClient (opts_or_default opts) _path s = Ok v)
          dynamicPart values ->
  Exists (fun v => isNil v = false) values ->
  get (config_or_default staticPart config) (Segments _path) = VUndefined ->
  createConfig isClient staticPart dynamicPart path opts config
  = Throw UndefinedStaticFallbackError.
Proof.
  intros Hpath Hvalues Hsome Hstatic.
  apply (override_without_static _ _ _ _ _ _ _ _ Hpath Hvalues Hsome).
  rewrite Hstatic. reflexivity.
Qed.

Lemma missing_static_fallback_is_fatal_witness :
  createConfig true (VObj [("screen", VObj [("width", VStr "medium")])])
    Example.dynamicPart (PathString "screen.height") VUndefined VUndefined
  = Throw UndefinedStaticFallbackError.
Proof.
  apply (missing_static_fallback_is_fatal true _ Example.dynamicPart
           (PathString "screen.height") VUndefined VUndefined
           ["screen"; "height"] [VStr "small"]).
  - reflexivity.
  - repeat constructor.
  - constructor. reflexivity.
  - reflexivity.
Defined.

(** ** [null] *)

(** Layers that all answer [undefined] or [null] leave the static lookup
    as the result. *)
Lemma nil_answers_resolve_static isClient staticPart dynamicPart path opts
    config _path values :
  to_segments path InvalidPathError = Ok _path ->
  Forall2 (fun s v => valueFromDb isClient (opts_or_default opts) _path s = Ok v)
          dynamicPart values ->
  Forall (fun v => isNil v = true) values ->
  createConfig isClient staticPart dynamicPart path opts config
  = Ok (get (config_or_default staticPart config) (Segments _path)).
Proof.
  intros Hpath Hvalues Hnil.
  answered Hpath Hvalues.
  rewrite (filter_defined_empty _ Hnil). reflexivity.
Qed.

(** Exchanging a layer that answers [null] for one that answers
    [undefined] changes nothing. *)
Lemma null_answer_as_absent isClient staticPart before after s_null s_absent
    path opts config _path :
  to_segments path InvalidPathError = Ok _path ->
  valueFromDb isClient (opts_or_default opts) _path s_null = Ok VNull ->
  valueFromDb isClient (opts_or_default opts) _path s_absent = Ok VUndefined ->
  createConfig isClient staticPart (before ++ s_null :: after) path opts config
  = createConfig isClient staticPart (before ++ s_absent :: after) path opts config.
Proof.
  intros Hpath Hnull Habsent. unfold createConfig.
  rewrite Hpath. simpl bind.
  rewrite !mapM_app. simpl mapM. rewrite Hnull, Habsent.
  destruct (mapM _ before) as [bs1|e]; simpl; [|reflexivity].
  destruct (mapM _ after) as [bs2|e]; simpl; [|reflexivity].
  rewrite !filter_app. reflexivity.
Qed.

(** C10. [null] counts as no value on both sides.  A layer answering
    [null] at the lookup path can be exchanged for a layer answering
    [undefined] without changing the outcome; layers that only answer
    [null] or [undefined] override nothing, the result being the static
    lookup; and a static configuration holding [null] at the requested
    path fails like one holding nothing as soon as a layer answers with a
    value. *)
Theorem null_counts_as_absent isClient staticPart path opts config _path :
  to_segments path InvalidPathError = Ok _path ->
  (forall before after s_null s_absent,
      valueFromDb isClient (opts_or_default opts) _path s_null = Ok VNull ->
      valueFromDb isClient (opts_or_default opts) _path s_absent = Ok VUndefined ->
      createConfig isClient staticPart (before ++ s_null :: after) path opts config
      = createConfig isClient staticPart (before ++ s_absent :: after) path opts config)
  /\ (forall dynamicPart values,
         Forall2 (fun s v =>
                    valueFromDb isClient (opts_or_default opts) _path s = Ok v)
                 dynamicPart values ->
         Forall (fun v => v = VNull \/ v = VUndefined) values ->
         createConfig isClient staticPart dynamicPart path opts config
         = Ok (get (config_or_default staticPart config) (Segments _path)))
  /\ (forall dynamicPart values,
         Forall2 (fun s v =>
                    valueFromDb isClient (opts_or_default opts) _path s = Ok v)
                 dynamicPart values ->
         Exists (fun v => isNil v = false) values ->
         get (config_or_default staticPart config) (Segments _path) = VNull ->
         createConfig isClient staticPart dynamicPart path opts config
         = Throw UndefinedStaticFallbackError).
Proof.
  intros Hpath. split; [|split].
  - intros before after s_null s_absent Hnull Habsent.
    exact (null_answer_as_absent _ _ _ _ _ _ _ _ _ _ Hpath Hnull Habsent).
  - intros dynamicPart values Hvalues Hnil.
    apply (nil_answers_resolve_static _ _ _ _ _ _ _ _ Hpath Hvalues).
    eapply Forall_impl; [|exact Hnil].
    intros v [-> | ->]; reflexivity.
  - intros dynamicPart values Hvalues Hsome Hstatic.
    apply (override_without_static _ _ _ _ _ _ _ _ Hpath Hvalues Hsome).
    rewrite Hstatic. reflexivity.
Qed.

Lemma null_counts_as_absent_witness :
  let staticPart := VObj [("a", VNull)] in
  let one := Inputs.layer (VObj [("a", VNum 1)]) in
  let null := Inputs.layer (VObj [("a", VNull)]) in
  let absent := Inputs.layer (VObj []) in
  createConfig true staticPart [one; null] (PathString "a") VUndefined VUndefined
  = createConfig true staticPart [one; absent] (PathString "a") VUndefined VUndefined
  /\ createConfig true staticPart [null; absent] (PathString "a") VUndefined VUndefined
     = Ok VNull
  /\ createConfig true staticPart [null; one] (PathString "a") VUndefined VUndefined
     = Throw UndefinedStaticFallbackError.
Proof.
  intros staticPart one null absent.
  destruct (null_counts_as_absent true staticPart (PathString "a")
              VUndefined VUndefined ["a"] eq_refl) as (Hswap & Hnil & Hfatal).
  split; [|split].
  - apply (Hswap [one] [] null absent); reflexivity.
  - apply (Hnil [null; absent] [VNull; VUndefined]).
    + repeat constructor.
    + constructor; [left; reflexivity|].
      constructor; [right; reflexivity|]. constructor.
  - apply (Hfatal [null; one] [VNull; VNum 1]).
    + repeat constructor.
    + right. left. reflexivity.
    + reflexivity.
Defined.

(** ** The merge *)

Lemma lookup_set_same props k v : lookup k (set props k v) = Some v.
Proof.
  induction props as [|[k' v'] props IH]; simpl.
  - rewrite String.eqb_refl. reflexivity.
  - destruct (k' =? k) eqn:Hk; simpl; rewrite Hk; [reflexivity | exact IH].
Qed.

Lemma lookup_set_other props key k v :
  key <> k -> lookup k (set props key v) = lookup k props.
Proof.
  intros Hne. induction props as [|[k' v'] props IH]; simpl.
  - apply String.eqb_neq in Hne. rewrite Hne. reflexivity.
  - destruct (k' =? key) eqn:Hkey; simpl.
    + apply String.eqb_eq in Hkey. subst k'.
      apply String.eqb_neq in Hne. rewrite Hne. reflexivity.
    + destruct (k' =? k); [reflexivity | exact IH].
Qed.

(** [assignMergeValue] on an object leaves it or sets the one key. *)
Lemma assignMergeValue_object props key v :
  assignMergeValue (VObj props) key v = VObj props
  \/ assignMergeValue (VObj props) key v = VObj (set props key v).
Proof.
  unfold assignMergeValue.
  match goal with |- context [if ?b then _ else _] => destruct b end;
    [right | left]; reflexivity.
Qed.

(** Every branch of the iteratee ends in one [assignMergeValue] at the
    key. *)
Lemma mergeProperty_assigns c mergeFunc object key srcValue :
  exists v,
    mergeProperty c mergeFunc object key srcValue = assignMergeValue object key v.
Proof.
  unfold mergeProperty, baseMergeDeep.
  destruct (isObject srcValue).
  - destruct (negb (isUndefined _)); [eexists; reflexivity|].
    destruct srcValue; eexists; reflexivity.
  - eexists; reflexivity.
Qed.

(** Merging a property leaves the other keys of the object alone. *)
Lemma mergeProperty_other c mergeFunc props key srcValue k :
  key <> k ->
  exists props',
    mergeProperty c mergeFunc (VObj props) key srcValue = VObj props'
    /\ lookup k props' = lookup k props.
Proof.
  intros Hne.
  destruct (mergeProperty_assigns c mergeFunc (VObj props) key srcValue) as [v ->].
  destruct (assignMergeValue_object props key v) as [-> | ->].
  - exists props. split; reflexivity.
  - exists (set props key v). split; [reflexivity|].
    apply lookup_set_other, Hne.
Qed.


Lemma mergeProperty_scalar c f g object key srcValue :
  isObject srcValue = false ->
  mergeProperty c f object key srcValue = mergeProperty c g object key srcValue.
Proof.
  intros Hscalar. unfold mergeProperty. rewrite Hscalar. reflexivity.
Qed.

(** [baseMerge] folds [mergeEntry] over the entries of its source. *)
Lemma baseMerge_entries c source object :
  baseMerge c source object = fold_left (mergeEntry c) (entries source) object.
Proof.
  destruct source as [| | b | n | s | elems | props]; try reflexivity.
  - simpl. generalize 0%nat. revert object.
    induction s as [|ch s IH]; intros object i; simpl; [reflexivity|].
    rewrite IH. f_equal.
  - simpl. generalize 0%nat. revert object.
    induction elems as [|srcValue elems IH]; intros object i; simpl;
      [reflexivity | apply IH].
  - simpl. revert object.
    induction props as [|[key srcValue] props IH]; intros object; simpl;
      [reflexivity | apply IH].
Qed.



(** ** What a merge returns *)

Lemma mergeEntry_object c props entry :
  exists props', mergeEntry c (VObj props) entry = VObj props'.
Proof.
  unfold mergeEntry.
  destruct (mergeProperty_assigns c (baseMerge c (snd entry)) (VObj props)
              (fst entry) (snd entry)) as [v ->].
  destruct (assignMergeValue_object props (fst entry) v) as [-> | ->];
    eexists; reflexivity.
Qed.

Lemma entries_object c es : forall props,
  exists props', fold_left (mergeEntry c) es (VObj props) = VObj props'.
Proof.
  induction es as [|entry es IH]; intros props; simpl.
  - exists props. reflexivity.
  - destruct (mergeEntry_object c props entry) as [props' ->]. apply IH.
Qed.

Lemma baseMerge_object c source props :
  exists props', baseMerge c source (VObj props) = VObj props'.
Proof.
  rewrite baseMerge_entries. apply entries_object.
Qed.

Lemma sources_object c sources : forall props,
  exists props',
    fold_left
      (fun object source =>
         if truthy source then baseMerge c source object else object)
      sources (VObj props) = VObj props'.
Proof.
  induction sources as [|source sources IH]; intros props; simpl.
  - exists props. reflexivity.
  - destruct (truthy source); [|apply IH].
    destruct (baseMerge_object c source props) as [props' ->]. apply IH.
Qed.

Lemma restricted_member s :
  restricted s = true -> customizer_properties s = Some Restricted.
Proof.
  unfold restricted, customizer_properties. intros Hs.
  apply orb_true_iff in Hs. destruct Hs as [Hs | Hs];
    apply String.eqb_eq in Hs; subst s; reflexivity.
Qed.

Lemma unrestricted_member s :
  restricted s = false -> customizer_properties s <> Some Restricted.
Proof.
  unfold customizer_properties. intros Hs. rewrite Hs.
  destruct (s =? "length"); [discriminate|].
  destruct (s =? "name"); [discriminate|].
  destruct (existsb _ _); discriminate.
Qed.

(** The guard test on the customizer throws exactly for the strings
    [caller] and [arguments]. *)
Lemma isIterateeCall_customizer_throws v s :
  restricted s = true ->
  isIterateeCall_customizer v (VStr s) = Throw TypeError.
Proof.
  intros Hs. unfold isIterateeCall_customizer.
  rewrite (restricted_member _ Hs). reflexivity.
Qed.

Lemma isIterateeCall_customizer_returns v index :
  guard_throws [v; index] = false ->
  exists guarded, isIterateeCall_customizer v index = Ok guarded.
Proof.
  unfold guard_throws, isIterateeCall_customizer.
  destruct index; try (intros _; eexists; reflexivity).
  intros Hs. apply unrestricted_member in Hs.
  destruct (customizer_properties s) as [[x | |] |];
    try (eexists; reflexivity).
  contradiction.
Qed.

(** [_.mergeWith({}, ...)] throws when the guard test reads a throwing
    accessor of the customizer. *)
Lemma mergeWith_throws sources c :
  guard_throws sources = true -> mergeWith sources c = Throw TypeError.
Proof.
  unfold guard_throws, mergeWith. intros Hs.
  destruct sources as [|v0 [|v1 [|v2 rest]]]; try discriminate Hs;
    destruct v1; try discriminate Hs.
  rewrite (isIterateeCall_customizer_throws _ _ Hs). reflexivity.
Qed.

(** Otherwise it returns the fresh object it was given: never a scalar,
    never an array. *)
Lemma mergeWith_object sources c :
  guard_throws sources = false ->
  exists props, mergeWith sources c = Ok (VObj props).
Proof.
  intros Hguard. unfold mergeWith.
  assert (Hguarded : exists guarded,
             match sources with
             | [v0; v1] => isIterateeCall_customizer v0 v1
             | v0 :: v1 :: guard :: _ => Ok (isIterateeCall v0 v1 guard)
             | _ => Ok false
             end = Ok guarded).
  { destruct sources as [|v0 [|v1 [|v2 rest]]]; try (eexists; reflexivity).
    apply isIterateeCall_customizer_returns, Hguard. }
  destruct Hguarded as [guarded ->]. simpl bind.
  match goal with
  | |- context [fold_left (fun object source =>
                             if truthy source then baseMerge ?c' source object
                             else object) ?merged (VObj [])] =>
      destruct (sources_object c' merged []) as [props ->]
  end.
  exists props. reflexivity.
Qed.

(** X10. Whenever a layer answers with a value and the static
    configuration holds one too, the call returns a plain object, whatever
    the values are, unless the merge sequence makes the guard test of
    [_.mergeWith] read a throwing accessor. *)
Lemma override_resolves_to_object isClient staticPart dynamicPart path opts
    config _path values :
  to_segments path InvalidPathError = Ok _path ->
  Forall2 (fun s v => valueFromDb isClient (opts_or_default opts) _path s = Ok v)
          dynamicPart values ->
  Exists (fun v => isNil v = false) values ->
  isNil (get (config_or_default staticPart config) (Segments _path)) = false ->
  guard_throws
    (allValues (filter (fun v => negb (isNil v)) values)
       (get (config_or_default staticPart config) (Segments _path)))
  = false ->
  exists props,
    createConfig isClient staticPart dynamicPart path opts config
    = Ok (VObj props).
Proof.
  intros Hpath Hvalues Hsome Hstatic Hguard.
  answered Hpath Hvalues.
  rewrite (filter_defined_nonempty _ Hsome), Hstatic. simpl.
  apply mergeWith_object, Hguard.
Qed.

(** ** Arrays under a key of the merged value *)

(** The customizer's first branch: an array of the later source replaces
    whatever the key held. *)
Lemma mergeProperty_array_wins mergeFunc props k l :
  mergeProperty (Some customizer) mergeFunc (VObj props) k (VArr l)
  = VObj (set props k (VArr l)).
Proof.
  unfold mergeProperty, baseMergeDeep, customize, customizer, assignMergeValue.
  simpl. destruct (prop (VObj props) k); reflexivity.
Qed.

Lemma sameValueZero_object a props : sameValueZero a (VObj props) = false.
Proof. destruct a; reflexivity. Qed.

(** With an object as first source a guard that is a data value does not
    fire. *)
Lemma isIterateeCall_object props index guard :
  isIterateeCall (VObj props) index guard = false.
Proof.
  unfold isIterateeCall.
  destruct (negb (isObject guard)); [reflexivity|].
  destruct index; try reflexivity.
  - destruct (_ && _); [apply sameValueZero_object | reflexivity].
  - destruct (has guard s); [apply sameValueZero_object | reflexivity].
Qed.

Lemma isIterateeCall_customizer_object props index :
  guard_throws [VObj props; index] = false ->
  isIterateeCall_customizer (VObj props) index = Ok false.
Proof.
  unfold guard_throws, isIterateeCall_customizer.
  destruct index; try reflexivity.
  intros Hs. apply unrestricted_member in Hs.
  destruct (customizer_properties s) as [[x | |] |]; try reflexivity.
  - rewrite sameValueZero_object. reflexivity.
  - contradiction.
Qed.

(** With an object as static value, the guard throws exactly for a single
    answer [caller] or [arguments]. *)
Lemma guard_throws_object props answers :
  guard_throws (VObj props :: rev answers) = restricted_answer answers.
Proof.
  destruct answers as [|a [|b rest]]; try reflexivity.
  assert (Hanswers : restricted_answer (a :: b :: rest) = false)
    by (destruct a; reflexivity).
  rewrite Hanswers. simpl rev.
  destruct ((rev rest ++ [b]) ++ [a]) as [|x [|y tail]] eqn:Hshape;
    try (destruct x; reflexivity); try reflexivity.
  exfalso. apply (f_equal (@List.length value)) in Hshape.
  rewrite !length_app in Hshape. simpl in Hshape. lia.
Qed.

Lemma mergeWith_object_first props rest :
  guard_throws (VObj props :: rest) = false ->
  mergeWith (VObj props :: rest) customizer
  = Ok (fold_left
          (fun object source =>
             if truthy source then baseMerge (Some customizer) source object
             else object)
          (VObj props :: rest) (VObj [])).
Proof.
  intros Hguard. unfold mergeWith.
  assert (Hguarded :
            match VObj props :: rest with
            | [v0; v1] => isIterateeCall_customizer v0 v1
            | v0 :: v1 :: guard :: _ => Ok (isIterateeCall v0 v1 guard)
            | _ => Ok false
            end = Ok false).
  { destruct rest as [|v1 [|guard rest]]; [reflexivity | |].
    - apply isIterateeCall_customizer_object, Hguard.
    - rewrite isIterateeCall_object. reflexivity. }
  rewrite Hguarded. simpl bind. cbv zeta. rewrite firstn_all. reflexivity.
Qed.

(** A source that has an entry other than a character is not a string, so
    the guard does not throw on it. *)
Lemma entry_unrestricted top others k x :
  In (k, x) (entries top) ->
  (forall c, x <> VStr c) ->
  restricted_answer (top :: others) = false.
Proof.
  intros Hin Hx. destruct top; try (destruct others; reflexivity).
  exfalso. simpl in Hin. revert Hin. generalize 0%nat.
  induction s as [|ch s IH]; simpl; intros i Hin; [exact Hin|].
  destruct Hin as [[= _ Hch] | Hin]; [exact (Hx _ (Logic.eq_sym Hch))|].
  exact (IH _ Hin).
Qed.









(** ** Precedence under a key of the merged value *)

Lemma sameValueZero_eq a b : sameValueZero a b = true -> a = b.
Proof.
  destruct a, b; simpl; try discriminate; intros H.
  - reflexivity.
  - reflexivity.
  - apply Bool.eqb_prop in H. subst. reflexivity.
  - apply Z.eqb_eq in H. subst. reflexivity.
  - apply String.eqb_eq in H. subst. reflexivity.
Qed.


(** Entries under other keys leave the key alone. *)
Lemma entries_keep_other c es : forall props k,
  ~ In k (map fst es) ->
  exists props',
    fold_left (mergeEntry c) es (VObj props) = VObj props'
    /\ lookup k props' = lookup k props.
Proof.
  induction es as [|[key srcValue] es IH]; intros props k Hfresh; simpl.
  - exists props. split; reflexivity.
  - assert (Hne : key <> k) by (intros ->; apply Hfresh; left; reflexivity).
    unfold mergeEntry at 2. simpl fst. simpl snd.
    destruct (mergeProperty_other c (baseMerge c srcValue) props key srcValue k Hne)
      as (props1 & -> & Hsame1).
    destruct (IH props1 k) as (props' & Hfold & Hsame').
    { intros Hin. apply Hfresh. right. exact Hin. }
    exists props'. split; [exact Hfold|]. rewrite Hsame'. exact Hsame1.
Qed.


Lemma entries_truthy source entry :
  In entry (entries source) -> truthy source = true.
Proof.
  destruct source as [| | b | n | s | elems | props]; simpl;
    try contradiction; try reflexivity.
  destruct s; simpl; [contradiction | reflexivity].
Qed.




(** * Further properties of the code *)

(** ** Path strings *)

Lemma join_cons_char sep c piece pieces :
  join sep (String c piece :: pieces) = String c (join sep (piece :: pieces)).
Proof. destruct pieces; reflexivity. Qed.

Lemma join_split s : join "." (split "." s) = s.
Proof.
  induction s as [|c s IH]; [reflexivity|]. simpl split.
  destruct (Ascii.eqb c ".") eqn:Hc.
  - apply Ascii.eqb_eq in Hc. subst c.
    destruct (split "." s) as [|piece pieces] eqn:Hs.
    + exfalso. exact (split_nonempty _ _ Hs).
    + change (join "." ("" :: piece :: pieces))
        with (String "." (join "." (piece :: pieces))).
      rewrite IH. reflexivity.
  - destruct (split "." s) as [|piece pieces] eqn:Hs.
    + exfalso. exact (split_nonempty _ _ Hs).
    + rewrite join_cons_char, IH. reflexivity.
Qed.

Lemma split_dot_free_segments s :
  Forall (fun seg => dot_free seg = true) (split "." s).
Proof.
  induction s as [|c s IH]; simpl.
  - repeat constructor.
  - destruct (Ascii.eqb c ".") eqn:Hc.
    + constructor; [reflexivity | exact IH].
    + destruct (split "." s) as [|piece pieces].
      * constructor; [simpl; rewrite Hc; reflexivity | constructor].
      * inversion IH as [|? ? Hpiece Hpieces]; subst.
        constructor; [simpl; rewrite Hc; exact Hpiece | exact Hpieces].
Qed.

(** X1. Splitting a path string at its dots loses nothing: joining the
    segments with dots gives the string back, no segment contains a dot,
    and there is always at least one segment, so that a string path, even
    the empty string, never converts to the empty path. *)
Theorem path_string_round_trip s :
  join "." (split "." s) = s
  /\ Forall (fun seg => dot_free seg = true) (split "." s)
  /\ to_segments (PathString s) InvalidPathError <> Ok [].
Proof.
  split; [apply join_split|]. split; [apply split_dot_free_segments|].
  simpl. intros [= Hempty]. exact (split_nonempty _ _ Hempty).
Qed.

(** ** Layer lookups *)

(** X2. A layer without path prefix, queried for a path given as a string,
    asks its collection for exactly that string (as the restricted field,
    on the client) and returns what [_.get] finds in the document under
    that same string. *)
Theorem string_path_is_lookup_key isClient opts s c query sel :
  find c = true ->
  findOne c = Some query ->
  isPlainObject sel = true ->
  valueFromDb isClient opts (split "." s)
    {| collection := CollectionValue c;
       selector := SelectorValue sel;
       pathPrefix := PathUndefined |}
  = (doc <- query sel (if isClient then Some s else None) ;;
     Ok (get doc (Dotted s))).
Proof.
  intros Hfind Hquery Hsel. unfold valueFromDb. simpl.
  rewrite Hfind, Hsel. simpl. rewrite Hquery, join_split. reflexivity.
Qed.

Lemma string_path_is_lookup_key_witness :
  valueFromDb true (VObj []) (split "." "screen.height")
    {| collection := CollectionValue (Inputs.holding Example.user);
       selector := SelectorValue (VObj []);
       pathPrefix := PathUndefined |}
  = (doc <- Ok Example.user ;; Ok (get doc (Dotted "screen.height"))).
Proof.
  apply (string_path_is_lookup_key true (VObj []) "screen.height"
           (Inputs.holding Example.user) (fun _ _ => Ok Example.user) (VObj []));
    reflexivity.
Defined.

(** X3. The path prefix of a layer is prepended to the requested path: a
    layer with the prefix [segs], queried for [_path], does what the same
    layer without prefix does for [segs ++ _path]; and a prefix given as a
    dotted string does what the sequence of its segments does. *)
Theorem prefix_is_prepended isClient opts _path provider sel segs :
  valueFromDb isClient opts _path
    {| collection := provider; selector := sel; pathPrefix := PathArray segs |}
  = valueFromDb isClient opts (segs ++ _path)
      {| collection := provider; selector := sel; pathPrefix := PathUndefined |}
  /\ (segs <> [] ->
      Forall (fun seg => dot_free seg = true) segs ->
      valueFromDb isClient opts _path
        {| collection := provider; selector := sel;
           pathPrefix := PathString (join "." segs) |}
      = valueFromDb isClient opts _path
          {| collection := provider; selector := sel;
             pathPrefix := PathArray segs |}).
Proof.
  split; [reflexivity|].
  intros Hne Hfree. unfold valueFromDb. simpl.
  rewrite (split_join _ Hne Hfree). reflexivity.
Qed.

Lemma prefix_is_prepended_witness :
  valueFromDb true (VObj []) ["screen"]
    {| collection := CollectionValue Example.users;
       selector := SelectorValue (VObj []);
       pathPrefix := PathString "settings.ui" |}
  = valueFromDb true (VObj []) ["screen"]
      {| collection := CollectionValue Example.users;
         selector := SelectorValue (VObj []);
         pathPrefix := PathArray ["settings"; "ui"] |}.
Proof.
  apply (prefix_is_prepended true (VObj []) ["screen"]
           (CollectionValue Example.users) (SelectorValue (VObj []))
           ["settings"; "ui"]).
  - discriminate.
  - repeat constructor.
Defined.

Lemma mapM_ext_in {A B : Type} (f g : A -> result B) (l : list A) :
  (forall a, In a l -> f a = g a) -> mapM f l = mapM g l.
Proof.
  induction l as [|a l IH]; intros Hsame; simpl; [reflexivity|].
  rewrite (Hsame a (or_introl Logic.eq_refl)), IH; [reflexivity|].
  intros a' Ha'. apply Hsame. right. exact Ha'.
Qed.

Lemma valueFromDb_any_side opts _path s :
  restriction_transparent opts s ->
  valueFromDb true opts _path s = valueFromDb false opts _path s.
Proof.
  unfold restriction_transparent, valueFromDb, fields_transparent.
  destruct (collection s) as [f | c].
  - destruct (f opts) as [c | e]; simpl; [|reflexivity].
    intros Hc. destruct (selector s) as [g | v].
    + destruct (g opts) as [sel | e]; simpl; [|reflexivity].
      destruct (to_segments _ _) as [prefix | e]; simpl; [|reflexivity].
      destruct (findOne c) as [query |]; [apply Hc | reflexivity].
    + destruct (isPlainObject v); simpl; [|reflexivity].
      destruct (to_segments _ _) as [prefix | e]; simpl; [|reflexivity].
      destruct (findOne c) as [query |]; [apply Hc | reflexivity].
  - simpl. intros Hc. destruct (find c); simpl.
    + specialize (Hc Logic.eq_refl). destruct (selector s) as [g | v].
      * destruct (g opts) as [sel | e]; simpl; [|reflexivity].
        destruct (to_segments _ _) as [prefix | e]; simpl; [|reflexivity].
        destruct (findOne c) as [query |]; [apply Hc | reflexivity].
      * destruct (isPlainObject v); simpl; [|reflexivity].
        destruct (to_segments _ _) as [prefix | e]; simpl; [|reflexivity].
        destruct (findOne c) as [query |]; [apply Hc | reflexivity].
    + destruct (selector s) as [g | v].
      * destruct (g opts) as [sel | e]; simpl; [|reflexivity].
        destruct (to_segments _ _) as [prefix | e]; reflexivity.
      * destruct (isPlainObject v); simpl; [|reflexivity].
        destruct (to_segments _ _) as [prefix | e]; reflexivity.
Qed.

(** X4. The restriction of the query to the looked-up field, made on the
    client only, is invisible in the result: when the collection of every
    layer answers a restricted query like the unrestricted one at the
    restricted field, a call returns or throws the same on the client and
    on the server. *)
Theorem client_and_server_agree staticPart dynamicPart path opts config :
  (forall s, In s dynamicPart ->
             restriction_transparent (opts_or_default opts) s) ->
  createConfig true staticPart dynamicPart path opts config
  = createConfig false staticPart dynamicPart path opts config.
Proof.
  intros Htransparent. unfold createConfig.
  destruct (to_segments path InvalidPathError) as [_path | e]; simpl;
    [|reflexivity].
  rewrite (mapM_ext_in (valueFromDb true (opts_or_default opts) _path)
             (valueFromDb false (opts_or_default opts) _path)); [reflexivity|].
  intros s Hs. apply valueFromDb_any_side, Htransparent, Hs.
Qed.

Lemma client_and_server_agree_witness :
  createConfig true Example.defaults Example.dynamicPart
    (PathString "screen") VUndefined VUndefined
  = createConfig false Example.defaults Example.dynamicPart
      (PathString "screen") VUndefined VUndefined.
Proof.
  apply (client_and_server_agree Example.defaults Example.dynamicPart
           (PathString "screen") VUndefined VUndefined).
  intros s [<- | []]. simpl. intros _ _selector field. reflexivity.
Defined.

(** ** Failures *)

(** A layer that throws, after layers that answer, ends the call with its
    error. *)
Lemma layer_failure isClient staticPart before s after path opts config
    _path values e :
  to_segments path InvalidPathError = Ok _path ->
  Forall2 (fun s v => valueFromDb isClient (opts_or_default opts) _path s = Ok v)
          before values ->
  valueFromDb isClient (opts_or_default opts) _path s = Throw e ->
  createConfig isClient staticPart (before ++ s :: after) path opts config
  = Throw e.
Proof.
  intros Hpath Hbefore Hfails. unfold createConfig.
  rewrite Hpath. simpl bind. rewrite mapM_app.
  rewrite (mapM_Forall2 _ _ _ Hbefore). simpl. rewrite Hfails. reflexivity.
Qed.

(** X5. Nothing is caught: the first layer whose lookup throws, be it in
    the provider function, the selector function, [findOne] or the code's
    own checks, ends the call with that very error, whatever the layers
    after it and whatever the static configuration. *)
Theorem first_failure_aborts isClient staticPart before s after path opts
    config _path values e :
  to_segments path InvalidPathError = Ok _path ->
  Forall2 (fun s v => valueFromDb isClient (opts_or_default opts) _path s = Ok v)
          before values ->
  valueFromDb isClient (opts_or_default opts) _path s = Throw e ->
  createConfig isClient staticPart (before ++ s :: after) path opts config
  = Throw e.
Proof.
  intros Hpath Hbefore Hfails.
  exact (layer_failure _ _ _ _ _ _ _ _ _ _ _ Hpath Hbefore Hfails).
Qed.

Lemma first_failure_aborts_witness :
  createConfig true Example.defaults
    (Example.dynamicPart
     ++ {| collection := CollectionValue
             {| find := true;
                findOne := Some (fun _ _ => Throw (Raised "connection lost")) |};
           selector := SelectorValue (VObj []);
           pathPrefix := PathUndefined |}
     :: Example.dynamicPart)
    (PathString "screen") VUndefined VUndefined
  = Throw (Raised "connection lost").
Proof.
  apply (first_failure_aborts true Example.defaults Example.dynamicPart _
           Example.dynamicPart (PathString "screen") VUndefined VUndefined
           ["screen"] [VObj [("height", VStr "small")]]
           (Raised "connection lost")).
  - reflexivity.
  - repeat constructor.
  - reflexivity.
Defined.

Lemma invalid_selector_throws isClient opts _path s v :
  provider_returns opts s ->
  selector s = SelectorValue v ->
  isPlainObject v = false ->
  valueFromDb isClient opts _path s = Throw InvalidSelectorError.
Proof.
  unfold provider_returns, valueFromDb. intros Hprovider -> Hv.
  destruct (collection s) as [f | c].
  - destruct Hprovider as [c ->]. simpl. rewrite Hv. reflexivity.
  - simpl. rewrite Hv. reflexivity.
Qed.

(** X6. A selector that is neither a function nor a plain object makes the
    call fail with the selector error, whatever the layer's path prefix,
    and even when the layer's provider is not a collection: the selector
    is checked before the collection is used. *)
Theorem invalid_selector_is_fatal isClient staticPart before s after path opts
    config _path values v :
  to_segments path InvalidPathError = Ok _path ->
  Forall2 (fun s v => valueFromDb isClient (opts_or_default opts) _path s = Ok v)
          before values ->
  provider_returns (opts_or_default opts) s ->
  selector s = SelectorValue v ->
  isPlainObject v = false ->
  createConfig isClient staticPart (before ++ s :: after) path opts config
  = Throw InvalidSelectorError.
Proof.
  intros Hpath Hbefore Hprovider Hselector Hv.
  apply (layer_failure _ _ _ _ _ _ _ _ _ _ _ Hpath Hbefore).
  exact (invalid_selector_throws _ _ _ _ _ Hprovider Hselector Hv).
Qed.

Lemma invalid_selector_is_fatal_witness :
  createConfig false Example.defaults
    [{| collection := CollectionValue {| find := false; findOne := None |};
        selector := SelectorValue (VStr "current/user/id");
        pathPrefix := PathOther |}]
    (PathString "screen") VUndefined VUndefined
  = Throw InvalidSelectorError.
Proof.
  apply (invalid_selector_is_fatal false Example.defaults [] _ []
           (PathString "screen") VUndefined VUndefined ["screen"] []
           (VStr "current/user/id")).
  - reflexivity.
  - constructor.
  - exact I.
  - reflexivity.
  - reflexivity.
Defined.

Lemma invalid_prefix_throws isClient opts _path s :
  provider_returns opts s ->
  selector_resolves opts s ->
  pathPrefix s = PathOther ->
  valueFromDb isClient opts _path s = Throw InvalidPathPrefixError.
Proof.
  unfold provider_returns, selector_resolves, valueFromDb.
  intros Hprovider Hselector ->.
  destruct (collection s) as [f | c].
  - destruct Hprovider as [c ->]. simpl.
    destruct (selector s) as [g | v].
    + destruct Hselector as [v ->]. reflexivity.
    + rewrite Hselector. reflexivity.
  - simpl. destruct (selector s) as [g | v].
    + destruct Hselector as [v ->]. reflexivity.
    + rewrite Hselector. reflexivity.
Qed.

(** X7. A path prefix that is neither a string, an array nor [undefined]
    makes the call fail with the path-prefix error once the selector is
    resolved, before the collection is queried and even when the layer's
    provider is not a collection. *)
Theorem invalid_path_prefix_is_fatal isClient staticPart before s after path
    opts config _path values :
  to_segments path InvalidPathError = Ok _path ->
  Forall2 (fun s v => valueFromDb isClient (opts_or_default opts) _path s = Ok v)
          before values ->
  provider_returns (opts_or_default opts) s ->
  selector_resolves (opts_or_default opts) s ->
  pathPrefix s = PathOther ->
  createConfig isClient staticPart (before ++ s :: after) path opts config
  = Throw InvalidPathPrefixError.
Proof.
  intros Hpath Hbefore Hprovider Hselector Hprefix.
  apply (layer_failure _ _ _ _ _ _ _ _ _ _ _ Hpath Hbefore).
  exact (invalid_prefix_throws _ _ _ _ Hprovider Hselector Hprefix).
Qed.

Lemma invalid_path_prefix_is_fatal_witness :
  createConfig false Example.defaults
    [{| collection := CollectionValue {| find := false; findOne := None |};
        selector := SelectorValue (VObj []);
        pathPrefix := PathOther |}]
    (PathString "screen") VUndefined VUndefined
  = Throw InvalidPathPrefixError.
Proof.
  apply (invalid_path_prefix_is_fatal false Example.defaults [] _ []
           (PathString "screen") VUndefined VUndefined ["screen"] []).
  - reflexivity.
  - constructor.
  - exact I.
  - reflexivity.
  - reflexivity.
Defined.

(** The path is checked first: a path that is neither a string, an array
    nor [undefined] makes the call fail with the path error whatever the
    layers are. *)
Lemma invalid_path_is_fatal isClient staticPart dynamicPart opts config :
  createConfig isClient staticPart dynamicPart PathOther opts config
  = Throw InvalidPathError.
Proof. reflexivity. Qed.

(** X8. A layer that answers with nothing can be left out: removing from
    the list a layer whose lookup returns [undefined] or [null] changes
    neither the value a call returns nor the error it throws, wherever
    the layer stands among the others. *)
Theorem silent_layer_can_be_removed isClient staticPart before s after path
    opts config _path v :
  to_segments path InvalidPathError = Ok _path ->
  valueFromDb isClient (opts_or_default opts) _path s = Ok v ->
  isNil v = true ->
  createConfig isClient staticPart (before ++ s :: after) path opts config
  = createConfig isClient staticPart (before ++ after) path opts config.
Proof.
  intros Hpath Hanswer Hnil. unfold createConfig.
  rewrite Hpath. simpl bind. rewrite !mapM_app. simpl mapM. rewrite Hanswer.
  destruct (mapM _ before) as [bs1 | e]; simpl; [|reflexivity].
  destruct (mapM _ after) as [bs2 | e]; simpl; [|reflexivity].
  rewrite !filter_app. simpl filter. rewrite Hnil. reflexivity.
Qed.

Lemma silent_layer_can_be_removed_witness :
  createConfig true Example.defaults
    (Example.dynamicPart ++ Inputs.layer (VObj []) :: Example.dynamicPart)
    (PathString "screen") VUndefined VUndefined
  = createConfig true Example.defaults
      (Example.dynamicPart ++ Example.dynamicPart)
      (PathString "screen") VUndefined VUndefined.
Proof.
  apply (silent_layer_can_be_removed true Example.defaults Example.dynamicPart
           (Inputs.layer (VObj [])) Example.dynamicPart (PathString "screen")
           VUndefined VUndefined ["screen"] VUndefined);
    reflexivity.
Defined.

Lemma defined_answer_iff (values : list value) :
  (List.length (filter (fun v => negb (isNil v)) values) =? 0)%nat = false
  <-> Exists (fun v => isNil v = false) values.
Proof.
  split; [|apply filter_defined_nonempty].
  induction values as [|v values IH]; simpl; [discriminate|].
  destruct (isNil v) eqn:Hv; simpl.
  - intros H. right. exact (IH H).
  - intros _. left. exact Hv.
Qed.

(** X9. When the path is valid and every layer answers, a call can fail
    in two ways only.  It throws the static-fallback error exactly when
    some answer is a value and the static configuration holds [undefined]
    or [null] at the path; it throws the runtime's [TypeError] exactly
    when some answer is a value, the static configuration holds a value,
    and the merge sequence has two sources of which the second is the
    string [caller] or [arguments], which the guard test of
    [_.mergeWith] looks up in the customizer function; otherwise it
    returns. *)
Theorem answered_call_failures isClient staticPart dynamicPart
    path opts config _path values :
  to_segments path InvalidPathError = Ok _path ->
  Forall2 (fun s v => valueFromDb isClient (opts_or_default opts) _path s = Ok v)
          dynamicPart values ->
  (forall e,
      createConfig isClient staticPart dynamicPart path opts config = Throw e ->
      e = UndefinedStaticFallbackError \/ e = TypeError)
  /\ (createConfig isClient staticPart dynamicPart path opts config
      = Throw UndefinedStaticFallbackError
      <-> Exists (fun v => isNil v = false) values
          /\ isNil (get (config_or_default staticPart config) (Segments _path))
             = true)
  /\ (createConfig isClient staticPart dynamicPart path opts config
      = Throw TypeError
      <-> Exists (fun v => isNil v = false) values
          /\ isNil (get (config_or_default staticPart config) (Segments _path))
             = false
          /\ guard_throws
               (allValues (filter (fun v => negb (isNil v)) values)
                  (get (config_or_default staticPart config) (Segments _path)))
             = true).
Proof.
  intros Hpath Hvalues. answered Hpath Hvalues.
  destruct (List.length (filter (fun v => negb (isNil v)) values) =? 0)%nat
    eqn:Hanswers; simpl negb; cbv iota.
  - assert (Hnone : ~ Exists (fun v => isNil v = false) values).
    { intros Hsome. apply defined_answer_iff in Hsome.
      rewrite Hsome in Hanswers. discriminate. }
    split; [intros e H; discriminate H|]. split; split.
    + intros H. discriminate H.
    + intros [Hsome _]. contradiction.
    + intros H. discriminate H.
    + intros [Hsome _]. contradiction.
  - apply defined_answer_iff in Hanswers.
    destruct (isNil (get (config_or_default staticPart config) (Segments _path)));
      cbv iota.
    + split; [intros e [= <-]; left; reflexivity|]. split; split.
      * intros _. split; [exact Hanswers | reflexivity].
      * intros _. reflexivity.
      * intros H. discriminate H.
      * intros (_ & H & _). discriminate H.
    + destruct (guard_throws
                  (allValues (filter (fun v => negb (isNil v)) values)
                     (get (config_or_default staticPart config)
                        (Segments _path)))) eqn:Hguard.
      * rewrite (mergeWith_throws _ customizer Hguard).
        split; [intros e [= <-]; right; reflexivity|]. split; split.
        -- intros H. discriminate H.
        -- intros [_ H]. discriminate H.
        -- intros _. split; [exact Hanswers|]. split; reflexivity.
        -- intros _. reflexivity.
      * destruct (mergeWith_object _ customizer Hguard) as [props ->].
        split; [intros e H; discriminate H|]. split; split.
        -- intros H. discriminate H.
        -- intros [_ H]. discriminate H.
        -- intros H. discriminate H.
        -- intros (_ & _ & H). discriminate H.
Qed.

Lemma answered_call_failures_witness :
  createConfig true (VObj []) Example.dynamicPart
    (PathString "screen") VUndefined VUndefined
  = Throw UndefinedStaticFallbackError
  /\ createConfig true Example.defaults
       [Inputs.layer (VObj [("screen", VStr "caller")])]
       (PathString "screen") VUndefined VUndefined
     = Throw TypeError.
Proof.
  split.
  - apply (answered_call_failures true (VObj []) Example.dynamicPart
             (PathString "screen") VUndefined VUndefined ["screen"]
             [VObj [("height", VStr "small")]]).
    + reflexivity.
    + repeat constructor.
    + split; [|reflexivity]. left. reflexivity.
  - apply (answered_call_failures true Example.defaults
             [Inputs.layer (VObj [("screen", VStr "caller")])]
             (PathString "screen") VUndefined VUndefined ["screen"]
             [VStr "caller"]).
    + reflexivity.
    + repeat constructor.
    + repeat split. left. reflexivity.
Defined.

Lemma override_resolves_to_object_witness :
  exists props,
    createConfig true Example.defaults Example.dynamicPart
      (PathString "screen.height") VUndefined VUndefined
    = Ok (VObj props).
Proof.
  apply (override_resolves_to_object true Example.defaults Example.dynamicPart
           (PathString "screen.height") VUndefined VUndefined
           ["screen"; "height"] [VStr "small"]).
  - reflexivity.
  - repeat constructor.
  - left. reflexivity.
  - reflexivity.
  - reflexivity.
Defined.

(** ** Providers without a query method *)

Lemma missing_findOne_throws isClient opts _path s c :
  collection s = CollectionValue c ->
  findOne c = None ->
  selector_resolves opts s ->
  pathPrefix s <> PathOther ->
  valueFromDb isClient opts _path s = Throw TypeError.
Proof.
  unfold selector_resolves, valueFromDb. intros -> Hquery Hselector Hprefix.
  simpl. destruct (selector s) as [g | v].
  - destruct Hselector as [v ->]. simpl.
    destruct (pathPrefix s); try contradiction; simpl;
      destruct (find c); simpl; try rewrite Hquery; reflexivity.
  - rewrite Hselector. simpl.
    destruct (pathPrefix s); try contradiction; simpl;
      destruct (find c); simpl; try rewrite Hquery; reflexivity.
Qed.

(** X21. The provider check looks at [find], the query calls [findOne]: a
    fixed provider without a [findOne] method, whether or not it has a
    [find] member, makes the call fail with the runtime's [TypeError] once
    the selector and the path prefix have been accepted. *)
Theorem provider_without_findOne_is_fatal isClient staticPart before s after
    path opts config _path values c :
  to_segments path InvalidPathError = Ok _path ->
  Forall2 (fun s v => valueFromDb isClient (opts_or_default opts) _path s = Ok v)
          before values ->
  collection s = CollectionValue c ->
  findOne c = None ->
  selector_resolves (opts_or_default opts) s ->
  pathPrefix s <> PathOther ->
  createConfig isClient staticPart (before ++ s :: after) path opts config
  = Throw TypeError.
Proof.
  intros Hpath Hbefore Hc Hquery Hselector Hprefix.
  apply (layer_failure _ _ _ _ _ _ _ _ _ _ _ Hpath Hbefore).
  exact (missing_findOne_throws _ _ _ _ _ Hc Hquery Hselector Hprefix).
Qed.

Lemma provider_without_findOne_is_fatal_witness :
  createConfig true Example.defaults
    [{| collection := CollectionValue {| find := true; findOne := None |};
        selector := SelectorValue (VObj []);
        pathPrefix := PathUndefined |}]
    (PathString "screen") VUndefined VUndefined
  = Throw TypeError.
Proof.
  apply (provider_without_findOne_is_fatal true Example.defaults [] _ []
           (PathString "screen") VUndefined VUndefined ["screen"] []
           {| find := true; findOne := None |}).
  - reflexivity.
  - constructor.
  - reflexivity.
  - reflexivity.
  - reflexivity.
  - discriminate.
Defined.

(** ** The keys of a merged value *)









(** ** Values under a key that the layers leave alone or erase *)

(** A value other than a plain object, met at a key the object does not
    have yet, is stored at that key. *)
Lemma mergeProperty_fresh mergeFunc props k srcValue :
  lookup k props = None ->
  isPlainObject srcValue = false ->
  exists props',
    mergeProperty (Some customizer) mergeFunc (VObj props) k srcValue = VObj props'
    /\ lookup k props' = Some srcValue.
Proof.
  intros Hfresh Hplain.
  destruct srcValue as [| | b | n | s | elems | sprops];
    try discriminate Hplain;
    try (rewrite mergeProperty_array_wins;
         eexists; split; [reflexivity | apply lookup_set_same]);
    unfold mergeProperty, customize, customizer, assignMergeValue, safeGet,
      prop, has; simpl; rewrite Hfresh; simpl;
    eexists; (split; [reflexivity | apply lookup_set_same]).
Qed.


(** A plain object met at a key that holds no array is merged into what the
    key holds, or into a fresh object. *)
Lemma mergeProperty_plain mergeFunc object k sprops :
  isArray (prop object k) = false ->
  mergeProperty (Some customizer) mergeFunc object k (VObj sprops)
  = assignMergeValue object k
      (mergeFunc (if isObject (prop object k) then prop object k else VObj [])).
Proof.
  intros Hobject.
  unfold mergeProperty, baseMergeDeep, customize, customizer, safeGet. simpl.
  rewrite Hobject. reflexivity.
Qed.









(** Entries that hold no array at [k] leave no array at [k]. *)
Lemma mergeEntry_not_array props k entry :
  isArray (prop (VObj props) k) = false ->
  (fst entry = k -> isArray (snd entry) = false) ->
  exists props',
    mergeEntry (Some customizer) (VObj props) entry = VObj props'
    /\ isArray (prop (VObj props') k) = false.
Proof.
  destruct entry as [key srcValue]. simpl fst. simpl snd.
  intros Hobject Hentry. unfold mergeEntry. simpl fst. simpl snd.
  destruct (string_dec key k) as [-> | Hne].
  - specialize (Hentry Logic.eq_refl).
    assert (Hstep : exists v,
               mergeProperty (Some customizer)
                 (baseMerge (Some customizer) srcValue) (VObj props) k srcValue
               = assignMergeValue (VObj props) k v
               /\ isArray v = false).
    { destruct srcValue as [| | b | n | s | elems | sprops];
        try discriminate Hentry.
      6: { rewrite (mergeProperty_plain _ _ _ _ Hobject).
           assert (Htarget : exists tprops,
                      (if isObject (prop (VObj props) k)
                       then prop (VObj props) k else VObj []) = VObj tprops).
           { destruct (prop (VObj props) k); try discriminate Hobject;
               eexists; reflexivity. }
           destruct Htarget as [tprops ->].
           destruct (baseMerge_object (Some customizer) (VObj sprops) tprops)
             as [merged ->].
           eexists; split; reflexivity. }
      all: generalize (baseMerge (Some customizer));
        intros mergeFunc;
        unfold mergeProperty, customize, customizer, safeGet; simpl;
        rewrite Hobject; eexists; split; reflexivity. }
    destruct Hstep as (v & -> & Hv).
    destruct (assignMergeValue_object props k v) as [-> | ->].
    + exists props. split; [reflexivity | exact Hobject].
    + exists (set props k v). split; [reflexivity|].
      unfold prop. simpl. rewrite lookup_set_same. exact Hv.
  - destruct (mergeProperty_other (Some customizer)
                (baseMerge (Some customizer) srcValue) props key srcValue k Hne)
      as (props' & -> & Hsame).
    exists props'. split; [reflexivity|].
    unfold prop in *. simpl in *. rewrite Hsame. exact Hobject.
Qed.

Lemma entries_not_array es : forall props k,
  isArray (prop (VObj props) k) = false ->
  (forall x, In (k, x) es -> isArray x = false) ->
  exists props',
    fold_left (mergeEntry (Some customizer)) es (VObj props) = VObj props'
    /\ isArray (prop (VObj props') k) = false.
Proof.
  induction es as [|entry es IH]; intros props k Hobject Hentries; simpl.
  - exists props. split; [reflexivity | exact Hobject].
  - destruct (mergeEntry_not_array props k entry Hobject) as (props1 & -> & H1).
    { intros Hkey. apply Hentries. left.
      destruct entry as [key x]. simpl in *. subst key. reflexivity. }
    apply IH; [exact H1|]. intros x Hx. apply Hentries. right. exact Hx.
Qed.

Lemma sources_not_array sources : forall props k,
  isArray (prop (VObj props) k) = false ->
  Forall (fun source => forall x, In (k, x) (entries source) -> isArray x = false)
         sources ->
  exists props',
    fold_left
      (fun object source =>
         if truthy source then baseMerge (Some customizer) source object
         else object)
      sources (VObj props) = VObj props'
    /\ isArray (prop (VObj props') k) = false.
Proof.
  induction sources as [|source sources IH]; intros props k Hobject Hsources;
    simpl.
  - exists props. split; [reflexivity | exact Hobject].
  - inversion Hsources as [|? ? Hsource Hrest]; subst.
    destruct (truthy source); [|apply IH; assumption].
    rewrite baseMerge_entries.
    destruct (entries_not_array _ _ _ Hobject Hsource) as (props1 & -> & H1).
    apply IH; assumption.
Qed.

(** A source with distinct keys that holds [null] at [k] leaves [null] at
    [k] when the object holds no array there. *)
Lemma null_entry_merged source props k :
  NoDup (map fst (entries source)) ->
  In (k, VNull) (entries source) ->
  isArray (prop (VObj props) k) = false ->
  exists props',
    baseMerge (Some customizer) source (VObj props) = VObj props'
    /\ lookup k props' = Some VNull.
Proof.
  intros Hdistinct Hin Hobject.
  rewrite baseMerge_entries.
  apply in_split in Hin. destruct Hin as (before & after & Hsplit).
  rewrite Hsplit in Hdistinct |- *.
  rewrite map_app in Hdistinct. simpl in Hdistinct.
  apply NoDup_remove_2 in Hdistinct.
  rewrite fold_left_app.
  destruct (entries_keep_other (Some customizer) before props k)
    as (props1 & -> & Hsame1).
  { intros Hk. apply Hdistinct. apply in_or_app. left. exact Hk. }
  simpl fold_left. unfold mergeEntry at 2. simpl fst. simpl snd.
  assert (Hobject1 : isArray (prop (VObj props1) k) = false).
  { unfold prop in *. simpl in *. rewrite Hsame1. exact Hobject. }
  assert (Hstep : mergeProperty (Some customizer)
                    (baseMerge (Some customizer) VNull) (VObj props1) k VNull
                  = assignMergeValue (VObj props1) k VNull).
  { unfold mergeProperty, customize, customizer, safeGet. simpl.
    rewrite Hobject1. reflexivity. }
  rewrite Hstep.
  assert (Hnull : exists props2,
             assignMergeValue (VObj props1) k VNull = VObj props2
             /\ lookup k props2 = Some VNull).
  { unfold assignMergeValue. simpl.
    destruct (sameValueZero (prop (VObj props1) k) VNull) eqn:Hsame; simpl.
    - exists props1. split; [reflexivity|].
      apply sameValueZero_eq in Hsame. unfold prop in Hsame. simpl in Hsame.
      destruct (lookup k props1) as [v|]; [subst v; reflexivity | discriminate].
    - eexists. split; [reflexivity | apply lookup_set_same]. }
  destruct Hnull as (props2 & -> & Hnull).
  destruct (entries_keep_other (Some customizer) after props2 k)
    as (props' & -> & Hsame').
  { intros Hk. apply Hdistinct. apply in_or_app. right. exact Hk. }
  exists props'. split; [reflexivity|]. rewrite Hsame'. exact Hnull.
Qed.

(** X15. Under a key, [null] does erase what is not an array: when the
    static value at the path is an object, the most authoritative answer
    holds [null] at a key, and neither the static value nor the other
    answers hold an array at that key, the resolved value holds [null]
    there, whatever the static value and the other answers held. *)
Theorem null_under_key_erases isClient staticPart dynamicPart path opts config
    _path values top others sprops k :
  to_segments path InvalidPathError = Ok _path ->
  Forall2 (fun s v => valueFromDb isClient (opts_or_default opts) _path s = Ok v)
          dynamicPart values ->
  filter (fun v => negb (isNil v)) values = top :: others ->
  get (config_or_default staticPart config) (Segments _path) = VObj sprops ->
  (forall x, In (k, x) sprops -> isArray x = false) ->
  Forall (fun answer => forall x, In (k, x) (entries answer) -> isArray x = false)
         others ->
  NoDup (map fst (entries top)) ->
  In (k, VNull) (entries top) ->
  exists resolved,
    createConfig isClient staticPart dynamicPart path opts config = Ok resolved
    /\ prop resolved k = VNull.
Proof.
  intros Hpath Hvalues Hfilter Hstatic Hsprops Hothers Hdistinct Hin.
  assert (Hguard : guard_throws (VObj sprops :: rev (top :: others)) = false).
  { rewrite guard_throws_object. apply (entry_unrestricted top others k VNull Hin).
    intros c H. discriminate H. }
  answered Hpath Hvalues. rewrite Hfilter, Hstatic. simpl.
  rewrite allValues_increasing_precedence by reflexivity.
  rewrite mergeWith_object_first by exact Hguard. simpl rev.
  change (VObj sprops :: (rev others ++ [top]))
    with ((VObj sprops :: rev others) ++ [top]).
  rewrite fold_left_app.
  destruct (sources_not_array (VObj sprops :: rev others) [] k Logic.eq_refl)
    as (props1 & -> & Hobject).
  { constructor; [exact Hsprops | apply Forall_rev, Hothers]. }
  simpl fold_left. rewrite (entries_truthy _ _ Hin).
  destruct (null_entry_merged top props1 k Hdistinct Hin Hobject)
    as (props' & -> & Hnull).
  eexists. split; [reflexivity|].
  unfold prop. simpl. rewrite Hnull. reflexivity.
Qed.

Lemma null_under_key_erases_witness :
  exists resolved,
    createConfig true Example.defaults
      [Inputs.layer (VObj [("screen", VObj [("width", VNull)])])]
      (PathString "screen") VUndefined VUndefined = Ok resolved
    /\ prop resolved "width" = VNull.
Proof.
  apply (null_under_key_erases true Example.defaults _
           (PathString "screen") VUndefined VUndefined ["screen"]
           [VObj [("width", VNull)]] (VObj [("width", VNull)]) []
           [("height", VStr "large"); ("width", VStr "medium")] "width").
  - reflexivity.
  - repeat constructor.
  - reflexivity.
  - reflexivity.
  - intros x [H | [H | []]]; [discriminate H | injection H as <-; reflexivity].
  - constructor.
  - repeat constructor. simpl. intuition.
  - left. reflexivity.
Defined.

(** ** Lookups *)

Lemma descend_app p q : forall object,
  descend object (p ++ q)
  = match descend object p with
    | Some v => descend v q
    | None => None
    end.
Proof.
  induction p as [|k p IH]; intros object; simpl; [reflexivity|].
  destruct (isNil object); [reflexivity | apply IH].
Qed.

Lemma get_descend object path :
  path <> [] ->
  get object (Segments path)
  = match descend object path with
    | Some v => v
    | None => VUndefined
    end.
Proof.
  destruct path as [|k path]; [contradiction|]. intros _.
  unfold get, baseGet. simpl. destruct (isNil object); reflexivity.
Qed.

Lemma get_segments_app object p q :
  p <> [] -> q <> [] ->
  get object (Segments (p ++ q))
  = get (get object (Segments p)) (Segments q).
Proof.
  intros Hp Hq.
  rewrite (get_descend _ (p ++ q)), (get_descend _ p Hp), !(get_descend _ q Hq),
    descend_app.
  - destruct (descend object p) as [v|]; [reflexivity|].
    destruct q as [|j q]; [contradiction | reflexivity].
  - destruct p; [contradiction | discriminate].
Qed.

(** X16. Lookups in the static configuration compose: without layers,
    resolving a path [p ++ q] gives what [_.get] finds at [q] in the value
    resolved for [p]; in particular, below a path that resolves to
    [undefined] or [null] every path resolves to [undefined], and nothing
    is thrown for a missing key. *)
Theorem static_lookup_composes isClient staticPart opts config p q :
  p <> [] -> q <> [] ->
  exists v,
    createConfig isClient staticPart [] (PathArray p) opts config = Ok v
    /\ createConfig isClient staticPart [] (PathArray (p ++ q)) opts config
       = Ok (get v (Segments q))
    /\ (isNil v = true ->
        createConfig isClient staticPart [] (PathArray (p ++ q)) opts config
        = Ok VUndefined).
Proof.
  intros Hp Hq.
  exists (get (config_or_default staticPart config) (Segments p)).
  unfold createConfig. simpl.
  rewrite (get_segments_app _ _ _ Hp Hq).
  split; [reflexivity|]. split; [reflexivity|].
  intros Hnil. unfold get at 1. rewrite Hnil. reflexivity.
Qed.

Lemma static_lookup_composes_witness :
  exists v,
    createConfig true Example.defaults [] (PathArray ["screen"])
      VUndefined VUndefined = Ok v
    /\ createConfig true Example.defaults []
         (PathArray (["screen"] ++ ["height"])) VUndefined VUndefined
       = Ok (get v (Segments ["height"]))
    /\ (isNil v = true ->
        createConfig true Example.defaults []
          (PathArray (["screen"] ++ ["height"])) VUndefined VUndefined
        = Ok VUndefined).
Proof.
  apply (static_lookup_composes true Example.defaults VUndefined VUndefined
           ["screen"] ["height"]); discriminate.
Defined.

(** ** Dotted lookups in the layers' documents *)

Lemma append_nil_r s : (s ++ "")%string = s.
Proof. induction s as [|c s IH]; simpl; [reflexivity | rewrite IH; reflexivity]. Qed.

Lemma length_append s t :
  String.length (s ++ t) = (String.length s + String.length t)%nat.
Proof. induction s as [|c s IH]; simpl; [reflexivity | rewrite IH; reflexivity]. Qed.

(** What follows a segment in a dotted string. *)
Lemma join_cons seg rest :
  join "." (seg :: rest)
  = (seg ++ match rest with
            | [] => ""
            | _ :: _ => String "." (join "." rest)
            end)%string.
Proof.
  destruct rest; simpl; [rewrite append_nil_r|]; reflexivity.
Qed.

Lemma span_segment seg rest :
  punct_free seg = true ->
  rest = "" \/ (exists r, rest = String "." r) ->
  span (fun c => negb (is_path_punct c)) (seg ++ rest) = (seg, rest).
Proof.
  intros Hseg Hrest. induction seg as [|c seg IH]; simpl.
  - destruct Hrest as [-> | [r ->]]; reflexivity.
  - simpl in Hseg. apply andb_true_iff in Hseg. destruct Hseg as [Hc Hseg].
    rewrite Hc, (IH Hseg). reflexivity.
Qed.

Lemma propNames_run n c seg rest :
  punct_free (String c seg) = true ->
  rest = "" \/ (exists r, rest = String "." r) ->
  propNames (S n) (String c seg ++ rest) = String c seg :: propNames n rest.
Proof.
  intros Hseg Hrest.
  change (String c seg ++ rest)%string with (String c (seg ++ rest)).
  cbn [propNames].
  change (String c (seg ++ rest)) with (String c seg ++ rest)%string.
  rewrite (span_segment _ _ Hseg Hrest). reflexivity.
Qed.

Lemma propNames_empty_segment n r :
  r = "" \/ (exists r', r = String "." r') ->
  propNames (S n) (String "." r) = "" :: propNames n r.
Proof.
  intros [-> | [r' ->]]; reflexivity.
Qed.

Lemma propNames_separator n c r :
  is_path_punct c = false ->
  propNames (S n) (String "." (String c r)) = propNames n (String c r).
Proof.
  intros Hc. cbn [propNames span]. simpl.
  unfold empty_segment_ahead. simpl.
  unfold is_path_punct in Hc.
  apply orb_false_elim in Hc. destruct Hc as [Hc _].
  apply orb_false_elim in Hc. destruct Hc as [Hdot Hopen].
  rewrite Hdot, Hopen. reflexivity.
Qed.

Lemma propNames_nil n : propNames n "" = [].
Proof. destruct n; reflexivity. Qed.

(** On a dotted string of segments free of path punctuation, the matches
    of [rePropName] are the segments, both from the start of a non-empty
    first segment and from a separating dot. *)
Lemma propNames_dotted segs :
  Forall (fun seg => punct_free seg = true) segs ->
  segs <> [] ->
  (forall n, hd "" segs <> "" ->
             String.length (join "." segs) <= n ->
             propNames n (join "." segs) = segs)
  /\ (forall n, String.length (join "." segs) < n ->
                propNames n (String "." (join "." segs)) = segs).
Proof.
  induction 1 as [|seg rest Hseg Hrest IH]; [contradiction|]. intros _.
  set (after := match rest with
                | [] => ""
                | _ :: _ => String "." (join "." rest)
                end).
  assert (Hafter : after = "" \/ (exists r, after = String "." r)).
  { subst after. destruct rest; [left | right; eexists]; reflexivity. }
  assert (Htail : forall n, String.length after <= n -> propNames n after = rest).
  { intros n Hn. subst after. destruct rest as [|seg' rest'].
    - apply propNames_nil.
    - apply IH; [discriminate|].
      change (String.length (String "." (join "." (seg' :: rest'))))
        with (S (String.length (join "." (seg' :: rest')))) in Hn.
      lia. }
  assert (Hfirst : forall n, seg <> "" ->
                     String.length (join "." (seg :: rest)) <= n ->
                     propNames n (join "." (seg :: rest)) = seg :: rest).
  { intros n Hne Hn. rewrite join_cons in Hn |- *. fold after in Hn |- *.
    destruct seg as [|c seg]; [contradiction|].
    rewrite length_append in Hn. simpl in Hn.
    destruct n as [|n]; [lia|].
    rewrite (propNames_run _ _ _ _ Hseg Hafter), Htail; [reflexivity | lia]. }
  split; [exact Hfirst|].
  intros n Hn. destruct n as [|n]; [lia|].
  destruct seg as [|c seg].
  - rewrite join_cons. fold after. simpl append.
    rewrite join_cons in Hn. fold after in Hn. simpl in Hn.
    rewrite (propNames_empty_segment _ _ Hafter), Htail; [reflexivity | lia].
  - assert (Hc : is_path_punct c = false).
    { simpl in Hseg. apply andb_true_iff in Hseg. destruct Hseg as [Hc _].
      destruct (is_path_punct c); [discriminate | reflexivity]. }
    assert (Hshape : join "." (String c seg :: rest)
                     = String c (seg ++ after)).
    { rewrite join_cons. reflexivity. }
    rewrite Hshape, (propNames_separator _ _ _ Hc), <- Hshape.
    apply Hfirst; [discriminate | lia].
Qed.

Lemma stringToPath_dotted segs :
  Forall (fun seg => punct_free seg = true) segs ->
  segs <> [] ->
  segs <> [""] ->
  stringToPath (join "." segs) = segs.
Proof.
  intros Hfree Hne Hroot. unfold stringToPath.
  destruct segs as [|seg rest]; [contradiction|].
  destruct seg as [|c seg].
  - destruct rest as [|seg' rest]; [contradiction|].
    change (join "." ("" :: seg' :: rest))
      with (String "." (join "." (seg' :: rest))).
    simpl starts_with. cbv iota.
    inversion Hfree as [|? ? _ Hrest]; subst.
    destruct (propNames_dotted (seg' :: rest) Hrest) as [_ Hdot];
      [discriminate|].
    rewrite Hdot; [reflexivity | simpl; lia].
  - assert (Hstart : starts_with "." (join "." (String c seg :: rest)) = false).
    { rewrite join_cons. simpl.
      inversion Hfree as [|? ? Hseg _]; subst. simpl in Hseg.
      apply andb_true_iff in Hseg. destruct Hseg as [Hc _].
      unfold is_path_punct in Hc.
      destruct (Ascii.eqb c "."); [discriminate | reflexivity]. }
    rewrite Hstart.
    destruct (propNames_dotted _ Hfree Hne) as [Hfirst _].
    apply Hfirst; [discriminate | lia].
Qed.

(** A dotted string of two segments or more is not a plain property name
    and reads as a deep path. *)
Lemma dotted_is_deep seg r :
  punct_free seg = true ->
  reIsPlainProp (seg ++ String "." r) = false
  /\ reIsDeepProp (seg ++ String "." r) = true.
Proof.
  intros Hseg. induction seg as [|c seg IH]; simpl.
  - split; reflexivity.
  - simpl in Hseg. apply andb_true_iff in Hseg. destruct Hseg as [Hc Hseg].
    destruct (IH Hseg) as [-> ->]. unfold is_path_punct in Hc.
    destruct (Ascii.eqb c "."); [discriminate|].
    destruct (Ascii.eqb c "["); [discriminate|].
    split; [apply andb_false_r | reflexivity].
Qed.

Lemma castPath_dotted object segs :
  Forall (fun seg => punct_free seg = true) segs ->
  segs <> [] ->
  List.length segs = 1%nat \/ has object (join "." segs) = false ->
  castPath (Dotted (join "." segs)) object = segs.
Proof.
  intros Hfree Hne Hliteral. unfold castPath.
  destruct segs as [|seg rest]; [contradiction|].
  destruct rest as [|seg' rest].
  - simpl join. destruct (isKey seg object) eqn:Hkey; [reflexivity|].
    apply (stringToPath_dotted [seg] Hfree Hne).
    intros [= ->]. discriminate Hkey.
  - destruct Hliteral as [Hone | Hliteral]; [discriminate Hone|].
    assert (Hkey : isKey (join "." (seg :: seg' :: rest)) object = false).
    { unfold isKey. rewrite Hliteral, andb_false_r, orb_false_r.
      rewrite join_cons.
      inversion Hfree as [|? ? Hseg _]; subst.
      destruct (dotted_is_deep seg (join "." (seg' :: rest)) Hseg) as [-> ->].
      reflexivity. }
    rewrite Hkey. apply stringToPath_dotted; [exact Hfree | exact Hne|].
    discriminate.
Qed.

Lemma get_dotted object segs :
  Forall (fun seg => punct_free seg = true) segs ->
  segs <> [] ->
  List.length segs = 1%nat \/ has object (join "." segs) = false ->
  get object (Dotted (join "." segs)) = get object (Segments segs).
Proof.
  intros Hfree Hne Hliteral. unfold get, baseGet.
  rewrite (castPath_dotted _ _ Hfree Hne Hliteral). reflexivity.
Qed.

(** X17. What a layer answers is the value found in its document by
    walking the segments of its path prefix and then those of the
    requested path, the same walk that reads the static configuration:
    this holds when no segment contains a dot or a bracket and the
    document has no property named by the whole dotted string. *)
Theorem layer_answer_is_segment_walk (isClient : bool) opts _path c query sel
    prefix doc :
  find c = true ->
  findOne c = Some query ->
  isPlainObject sel = true ->
  prefix ++ _path <> [] ->
  Forall (fun seg => punct_free seg = true) (prefix ++ _path) ->
  query sel (if isClient then Some (join "." (prefix ++ _path)) else None)
  = Ok doc ->
  List.length (prefix ++ _path) = 1%nat
  \/ has doc (join "." (prefix ++ _path)) = false ->
  valueFromDb isClient opts _path
    {| collection := CollectionValue c;
       selector := SelectorValue sel;
       pathPrefix := PathArray prefix |}
  = Ok (get doc (Segments (prefix ++ _path))).
Proof.
  intros Hfind Hquery Hsel Hne Hfree Hdoc Hliteral.
  unfold valueFromDb. simpl. rewrite Hfind, Hsel. simpl.
  rewrite Hquery, Hdoc. simpl.
  rewrite (get_dotted _ _ Hfree Hne Hliteral). reflexivity.
Qed.

Lemma layer_answer_is_segment_walk_witness :
  valueFromDb true (VObj []) ["screen"; "height"]
    {| collection := CollectionValue Example.users;
       selector := SelectorValue (VObj []);
       pathPrefix := PathArray ["settings"] |}
  = Ok (get Example.user (Segments (["settings"] ++ ["screen"; "height"]))).
Proof.
  apply (layer_answer_is_segment_walk true (VObj []) ["screen"; "height"]
           Example.users (fun _ _ => Ok Example.user) (VObj []) ["settings"]
           Example.user).
  - reflexivity.
  - reflexivity.
  - reflexivity.
  - discriminate.
  - repeat constructor.
  - reflexivity.
  - right. reflexivity.
Defined.

(** ** Missing documents and optional arguments *)

Lemma missing_document_answers_undefined isClient opts _path s :
  finds_nothing s ->
  valueFromDb isClient opts _path s = Ok VUndefined.
Proof.
  intros (c & query & sel & Hc & Hfind & Hquery & Hs & Hsel & Hprefix & Hdoc).
  unfold valueFromDb. rewrite Hc, Hs. simpl. rewrite Hfind, Hsel. simpl.
  destruct (pathPrefix s) as [p | segs | |]; try contradiction; simpl;
    rewrite Hquery;
    match goal with
    | |- context [query sel ?field] =>
        destruct (Hdoc field) as (doc & -> & Hnil)
    end;
    simpl; unfold get; rewrite Hnil; reflexivity.
Qed.

(** X18. Layers whose collections hold no matching document contribute
    nothing: when [findOne] returns [undefined] or [null] in every layer,
    the call returns the plain static lookup, and does not fail even where
    the static configuration has no value. *)
Theorem missing_documents_resolve_static isClient staticPart dynamicPart path
    opts config _path :
  to_segments path InvalidPathError = Ok _path ->
  (forall s, In s dynamicPart -> finds_nothing s) ->
  createConfig isClient staticPart dynamicPart path opts config
  = Ok (get (config_or_default staticPart config) (Segments _path)).
Proof.
  intros Hpath Hmissing.
  apply (nil_answers_resolve_static _ _ _ _ _ _ _
           (map (fun _ => VUndefined) dynamicPart) Hpath).
  - induction dynamicPart as [|s rest IH]; simpl; constructor.
    + apply missing_document_answers_undefined, Hmissing. left. reflexivity.
    + apply IH. intros s' Hs'. apply Hmissing. right. exact Hs'.
  - apply Forall_forall. intros v Hv. apply in_map_iff in Hv.
    destruct Hv as (s & <- & _). reflexivity.
Qed.

Lemma missing_documents_resolve_static_witness :
  createConfig true Example.defaults
    [Inputs.layer VUndefined; Inputs.layer VNull]
    (PathString "screen.depth") VUndefined VUndefined
  = Ok (get Example.defaults (Segments ["screen"; "depth"])).
Proof.
  apply (missing_documents_resolve_static true Example.defaults
           [Inputs.layer VUndefined; Inputs.layer VNull]
           (PathString "screen.depth") VUndefined VUndefined
           ["screen"; "depth"]).
  - reflexivity.
  - intros s [<- | [<- | []]].
    + exists (Inputs.holding VUndefined), (fun _ _ => Ok VUndefined), (VObj []).
      repeat split; try reflexivity; try discriminate.
      intros field. exists VUndefined. split; reflexivity.
    + exists (Inputs.holding VNull), (fun _ _ => Ok VNull), (VObj []).
      repeat split; try reflexivity; try discriminate.
      intros field. exists VNull. split; reflexivity.
Defined.

(** X19. The optional arguments: leaving out the options is passing the
    empty object, and a configuration passed as third argument replaces
    the static part for that call, which then plays no role at all. *)
Theorem optional_arguments isClient staticPart dynamicPart path opts config :
  createConfig isClient staticPart dynamicPart path VUndefined config
  = createConfig isClient staticPart dynamicPart path (VObj []) config
  /\ (isUndefined config = false ->
      forall staticPart',
        createConfig isClient staticPart dynamicPart path opts config
        = createConfig isClient staticPart' dynamicPart path opts config
        /\ createConfig isClient staticPart dynamicPart path opts config
           = createConfig isClient config dynamicPart path opts VUndefined).
Proof.
  split; [reflexivity|].
  intros Hconfig staticPart'. unfold createConfig, config_or_default.
  rewrite Hconfig. simpl. split; reflexivity.
Qed.

Lemma optional_arguments_witness :
  createConfig true (VObj []) Example.dynamicPart (PathString "screen")
    VUndefined Example.defaults
  = createConfig true Example.defaults Example.dynamicPart (PathString "screen")
      VUndefined VUndefined.
Proof.
  destruct (optional_arguments true (VObj []) Example.dynamicPart
              (PathString "screen") VUndefined Example.defaults) as [_ Hconfig].
  apply (Hconfig Logic.eq_refl (VObj [])).
Defined.

(** ** Answers that repeat the static value *)



Lemma sameValueZero_refl x : isObject x = false -> sameValueZero x x = true.
Proof.
  destruct x; simpl; try discriminate; intros _; try reflexivity.
  - apply Bool.eqb_reflx.
  - apply Z.eqb_refl.
  - apply String.eqb_refl.
Qed.





(** ** Objects under a key *)



